(** * The form-submission endpoint [api/submit.js]

    A shallow embedding of the request handler of [src/api/submit.js] and the
    properties of it that the specification states.

    The handler is JavaScript: it receives arbitrary JSON, coerces it with the
    language's own rules, talks to two outside services (the reCAPTCHA
    verifier and the Supabase store) and may throw.  The embedding keeps all of
    that visible:

    - JSON and JavaScript values are the inductive type [value]; the
      coercions the handler relies on ([ToBoolean], [ToNumber], [ToString],
      property lookup, [<] and [>]) are written out, with the [TypeError]
      that [ToNumber] and [ToString] throw on some objects;
    - the outside world is reached through [call]s; the handler is a tree of
      calls ([io]), run against any [Backend] by [run], which also records the
      trace of calls and replies;
    - exceptions are the [Throw] node, and [try_catch] is the handler's
      [try { ... } catch (err) { ... }]. *)

From Stdlib Require Import Ascii String QArith.
From stdpp Require Import base strings list pretty.

Set Default Proof Using "Type".
#[local] Set Warnings "-register-all".
#[local] Open Scope string_scope.
#[local] Open Scope list_scope.

(* ===================================================================== *)
(** * JavaScript values *)
(* ===================================================================== *)

(** A JavaScript Number.  A finite double denotes a rational, and the
    handler only compares numbers with [<] and [>], which on finite doubles
    is the order of the rationals they denote; [Fin q] with [q] ranging over
    all of [Q] therefore covers every finite double ([-0] and [+0] are both
    [Fin 0]: no operation of the handler tells them apart). *)
Inductive number :=
| NaN
| Fin (q : Q)
| PosInf
| NegInf.

(** An object is the list of its properties, in the order they were written
    (the order in which a response body is serialised).  Strings are
    [string]: the UTF-8 bytes of the text.  Searching for, and
    splitting at, an ASCII character gives the same pieces as on the UTF-16
    code units JavaScript uses. *)
Inductive value :=
| Undefined
| Null
| Bool (b : bool)
| Number (n : number)
| Str (s : string)
| Array (elems : list value)
| Object (props : list (string * value)).

(** What [new TypeError(..)], [new SyntaxError(..)] and [new Error(..)]
    carry. *)
Inductive exn :=
| TypeError (msg : string)
| SyntaxError (msg : string)
| Error (msg : string).

(** The parts of the language runtime whose tables are not in the
    repository: Unicode case mapping and the conversions between number and
    text.  Every theorem holds for every runtime. *)
Class Runtime := {
  toLowerCase : string → string;     (* String.prototype.toLowerCase *)
  StringToNumber : string → number;  (* ToNumber applied to a String *)
  NumberToString : number → string   (* Number::toString *)
}.

(* --------------------------------------------------------------------- *)
(** ** Numbers *)

(** [a < b] on Numbers: false as soon as one side is [NaN]. *)
Definition num_lt (a b : number) : bool :=
  match a, b with
  | NaN, _ | _, NaN => false
  | Fin p, Fin q => match (p ?= q)%Q with Lt => true | _ => false end
  | NegInf, NegInf => false
  | NegInf, _ => true
  | _, NegInf => false
  | PosInf, _ => false
  | _, PosInf => true
  end.

(** [a <= b] on Numbers. *)
Definition num_le (a b : number) : bool :=
  match a, b with
  | NaN, _ | _, NaN => false
  | Fin p, Fin q => match (p ?= q)%Q with Gt => false | _ => true end
  | NegInf, _ => true
  | _, NegInf => false
  | _, PosInf => true
  | PosInf, _ => false
  end.

Arguments num_lt : simpl never.
Arguments num_le : simpl never.

Definition num_of_nat (n : nat) : number := Fin (inject_Z (Z.of_nat n)).

(* --------------------------------------------------------------------- *)
(** ** Strings *)

(** [s.includes(sub)] *)
Fixpoint includes (sub s : string) : bool :=
  String.prefix sub s ||
  match s with
  | EmptyString => false
  | String _ s' => includes sub s'
  end.

(** [s.endsWith(suffix)]: some tail of [s] is [suffix]. *)
Fixpoint endsWith (s suffix : string) : bool :=
  String.eqb s suffix ||
  match s with
  | EmptyString => false
  | String _ s' => endsWith s' suffix
  end.

(** [s.split(sep)] for a separator of one character, as in [split('@')]. *)
Fixpoint split (sep : ascii) (s : string) : list string :=
  match s with
  | EmptyString => [EmptyString]
  | String c s' =>
      if Ascii.eqb c sep then EmptyString :: split sep s'
      else match split sep s' with
           | [] => [String c EmptyString]
           | piece :: pieces => String c piece :: pieces
           end
  end.

(** [pieces.join(sep)] *)
Fixpoint join (sep : string) (pieces : list string) : string :=
  match pieces with
  | [] => ""
  | [p] => p
  | p :: ps => p +:+ sep +:+ join sep ps
  end.

(** ASCII case folding, the part of [toLowerCase] that is the same in every
    runtime. *)
Definition ascii_lower (c : ascii) : ascii :=
  let n := nat_of_ascii c in
  if (65 <=? n)%nat && (n <=? 90)%nat then ascii_of_nat (n + 32) else c.

Fixpoint ascii_toLowerCase (s : string) : string :=
  match s with
  | EmptyString => EmptyString
  | String c s' => String (ascii_lower c) (ascii_toLowerCase s')
  end.

(* --------------------------------------------------------------------- *)
(** ** Coercions *)

(** The first property of that name (the keys of an object are distinct). *)
Fixpoint assoc (key : string) (props : list (string * value)) : option value :=
  match props with
  | [] => None
  | (k, v) :: props' => if String.eqb k key then Some v else assoc key props'
  end.

Section Coercions.
Context `{Runtime}.

(** [ToBoolean]: what [if (v)], [!v] and [v && ..] test. *)
Definition ToBoolean (v : value) : bool :=
  match v with
  | Undefined | Null => false
  | Bool b => b
  | Number NaN => false
  | Number (Fin q) => negb (Qeq_bool q 0)
  | Number _ => true
  | Str s => negb (String.eqb s "")
  | Array _ | Object _ => true
  end.

(** [ToString], or [None] where it throws a [TypeError].

    An object or an array is first made a primitive ([ToPrimitive]), which
    looks for a callable [toString] and [valueOf] on it.  On data that came
    as JSON: an object with a key [toString] of its own hides
    [Object.prototype.toString] behind a value that cannot be called, and
    [valueOf] (its own, which cannot be called, or the inherited one, which
    gives the object back) yields no primitive either, so the conversion
    throws; an object without that key is ["[object Object]"]; an array is
    the join of its elements, where [undefined] and [null] elements give the
    empty string and any other element is converted in turn, and may
    throw. *)
Fixpoint ToString (v : value) : option string :=
  match v with
  | Undefined => Some "undefined"
  | Null => Some "null"
  | Bool true => Some "true"
  | Bool false => Some "false"
  | Number n => Some (NumberToString n)
  | Str s => Some s
  | Array elems =>
      match
        (fix each (l : list value) : option (list string) :=
           match l with
           | [] => Some []
           | Undefined :: l' | Null :: l' =>
               match each l' with
               | Some pieces => Some ("" :: pieces)
               | None => None
               end
           | e :: l' =>
               match ToString e, each l' with
               | Some piece, Some pieces => Some (piece :: pieces)
               | _, _ => None
               end
           end) elems
      with
      | Some pieces => Some (join "," pieces)
      | None => None
      end
  | Object props =>
      match assoc "toString" props with
      | Some _ => None
      | None => Some "[object Object]"
      end
  end.

(** [ToNumber], or [None] where it throws a [TypeError]: an array or an
    object goes through its string form, whichever of [valueOf] and
    [toString] is asked first. *)
Definition ToNumber (v : value) : option number :=
  match v with
  | Undefined => Some NaN
  | Null => Some (Fin 0)
  | Bool true => Some (Fin 1)
  | Bool false => Some (Fin 0)
  | Number n => Some n
  | Str s => Some (StringToNumber s)
  | Array _ | Object _ =>
      match ToString v with
      | Some s => Some (StringToNumber s)
      | None => None
      end
  end.

(** [v < c] and [v > c] against a numeric literal [c]: the comparison is
    numeric, after [ToNumber] of the left side; [None] where that throws. *)
Definition less_than (v : value) (c : number) : option bool :=
  match ToNumber v with
  | Some n => Some (num_lt n c)
  | None => None
  end.
Definition greater_than (v : value) (c : number) : option bool :=
  match ToNumber v with
  | Some n => Some (num_lt c n)
  | None => None
  end.

End Coercions.
Arguments ToBoolean : simpl never.
Arguments less_than : simpl never.
Arguments greater_than : simpl never.

(** [v === 'lit'] against a string literal. *)
Definition strict_equals (v : value) (lit : string) : bool :=
  match v with
  | Str s => String.eqb s lit
  | _ => false
  end.

(** [v.key] where [v] is known to be neither [undefined] nor [null].  The
    handler reads [length] and a few data keys, none of which is an index or
    a method; on a string or an array only [length] is then defined, and a
    number or a boolean has none of them.  The length of a string is observed
    by the handler only through [> 0]. *)
Definition get (v : value) (key : string) : value :=
  match v with
  | Object props => default Undefined (assoc key props)
  | Str s => if String.eqb key "length" then Number (num_of_nat (String.length s)) else Undefined
  | Array elems => if String.eqb key "length" then Number (num_of_nat (length elems)) else Undefined
  | _ => Undefined
  end.

(** [undefined] and [null]: the values that have no properties. *)
Definition nullish (v : value) : bool :=
  match v with
  | Undefined | Null => true
  | _ => false
  end.

(** [v?.key] *)
Definition get_optional (v : value) (key : string) : value :=
  if nullish v then Undefined else get v key.

(* ===================================================================== *)
(** * Calls to the outside, and programs that make them *)
(* ===================================================================== *)

(** An argument of [console.warn] or [console.error]. *)
Inductive logarg :=
| LogValue (v : value)
| LogExn (e : exn).

(** Everything the handler asks of the world around it. *)
Inductive call :=
| console_warn (args : list logarg)
| console_error (args : list logarg)
| process_env (name : string)
    (* process.env[name] *)
| fetch_json (url method : string)
    (* (await fetch(url, {method})).json() *)
| select_maybeSingle (table columns column : string) (v : value)
    (* supabase.from(table).select(columns).eq(column, v).maybeSingle() *)
| insert_rows (table : string) (rows : list value).
    (* supabase.from(table).insert(rows) *)

(** How a call ends: with a value, or (an awaited promise that rejects) with
    an exception. *)
Inductive settled :=
| Fulfilled (v : value)
| Rejected (e : exn).

(** A program: it returns, throws, or makes a call and goes on with the
    reply. *)
Inductive io (A : Type) : Type :=
| Ret (a : A)
| Throw (e : exn)
| Call (c : call) (k : settled → io A).
Arguments Ret {A} a.
Arguments Throw {A} e.
Arguments Call {A} c k.

Fixpoint bind {A B} (m : io A) (f : A → io B) : io B :=
  match m with
  | Ret a => f a
  | Throw e => Throw e
  | Call c k => Call c (λ r, bind (k r) f)
  end.

Notation "x <- m ;; k" := (bind m (λ x, k))
  (at level 100, m at next level, right associativity).
Notation "m ;; k" := (bind m (λ _, k))
  (at level 100, right associativity).

(** [try { body } catch (err) { handle err }] *)
Fixpoint try_catch {A} (body : io A) (handle : exn → io A) : io A :=
  match body with
  | Ret a => Ret a
  | Throw e => handle e
  | Call c k => Call c (λ r, try_catch (k r) handle)
  end.

(** [await c]: the value of the reply, or its exception thrown. *)
Definition await (c : call) : io value :=
  Call c (λ r, match r with Fulfilled v => Ret v | Rejected e => Throw e end).

(** A call made for its effect only. *)
Definition perform (c : call) : io unit := Call c (λ _, Ret ()).

(** The world as the handler meets it: a state and the reply to each call. *)
Definition Backend (S : Type) : Type := call → S → settled * S.

(** How a run ends. *)
Inductive outcome (A : Type) : Type :=
| Returned (a : A)
| Threw (e : exn).
Arguments Returned {A} a.
Arguments Threw {A} e.

(** One entry of the trace: a call and the reply it got. *)
Definition event : Type := call * settled.

Record result (A S : Type) : Type := Result {
  ended : outcome A;
  trace : list event;
  final : S
}.
Arguments Result {A S} ended trace final.
Arguments ended {A S} r.
Arguments trace {A S} r.
Arguments final {A S} r.

Fixpoint run {A S} (B : Backend S) (p : io A) (s : S) : result A S :=
  match p with
  | Ret a => Result (Returned a) [] s
  | Throw e => Result (Threw e) [] s
  | Call c k =>
      let '(r, s1) := B c s in
      let rest := run B (k r) s1 in
      Result (ended rest) ((c, r) :: trace rest) (final rest)
  end.

Definition is_store_call (c : call) : bool :=
  match c with
  | select_maybeSingle _ _ _ _ | insert_rows _ _ => true
  | _ => false
  end.

Definition is_captcha_call (c : call) : bool :=
  match c with
  | fetch_json _ _ => true
  | _ => false
  end.

(** The calls of a trace that reach the store, and those that reach the
    CAPTCHA verifier. *)
Definition store_calls (t : list event) : list call :=
  List.filter is_store_call (map fst t).
Definition captcha_calls (t : list event) : list call :=
  List.filter is_captcha_call (map fst t).

(* ===================================================================== *)
(** * The handler *)
(* ===================================================================== *)

(** The request as the handler reads it: [req.method] and [req.body]. *)
Record Request := {
  method : value;
  body : value
}.

(** [res.status(status).json(json)] *)
Record Response := {
  status : Z;
  json : value
}.

Definition BLOCKED_DOMAINS : list string := [
  "mailinator.com"; "tempmail.com"; "yopmail.com"; "guerrillamail.com";
  "10minutemail.com"; "sharklasers.com"; "throwawaymail.com"; "getnada.com"
].

Definition BLOCKED_TLDS : list string :=
  [".xyz"; ".icu"; ".top"; ".tk"; ".ml"; ".ga"; ".cf"; ".gq"; ".ru"; ".cn"].

(** [BLOCKED_DOMAINS.includes(emailDomain)] *)
Definition isDisposable (emailDomain : string) : bool :=
  existsb (String.eqb emailDomain) BLOCKED_DOMAINS.

(** [BLOCKED_TLDS.some(tld => emailDomain.endsWith(tld))] *)
Definition isSuspiciousTLD (emailDomain : string) : bool :=
  existsb (λ tld, endsWith emailDomain tld) BLOCKED_TLDS.
Arguments isDisposable : simpl never.
Arguments isSuspiciousTLD : simpl never.

(** [const { .. } = v]: destructuring [undefined] or [null] throws. *)
Definition destructure (v : value) : io value :=
  if nullish v then Throw (TypeError "Cannot destructure") else Ret v.

(** [v.key], which throws when [v] is [undefined] or [null]. *)
Definition prop (v : value) (key : string) : io value :=
  if nullish v then Throw (TypeError "Cannot read properties") else Ret (get v key).

(** [v.includes(arg)]: a string searches itself, an array its elements;
    nothing else that JSON can carry has a callable [includes]. *)
Definition call_includes (v : value) (arg : string) : io bool :=
  match v with
  | Str s => Ret (includes arg s)
  | Array elems => Ret (existsb (λ e, strict_equals e arg) elems)
  | _ => Throw (TypeError "includes is not a function")
  end.

(** The result of a coercion, or the [TypeError] it throws. *)
Definition coerce {A} (result : option A) : io A :=
  match result with
  | Some a => Ret a
  | None => Throw (TypeError "Cannot convert object to primitive value")
  end.

(** [v.split(sep)]: only a string has it. *)
Definition call_split (v : value) (sep : ascii) : io (list string) :=
  match v with
  | Str s => Ret (split sep s)
  | _ => Throw (TypeError "split is not a function")
  end.

Section Handler.
Context `{Runtime}.

(** [piece.toLowerCase()] where [piece] is [pieces[i]], [undefined] when
    out of range. *)
Definition call_toLowerCase (piece : option string) : io string :=
  match piece with
  | Some s => Ret (toLowerCase s)
  | None => Throw (TypeError "Cannot read properties of undefined")
  end.

(** Line 27, [honeypot && honeypot.length > 0]: the comparison is made, and
    may throw, only when [honeypot] is truthy. *)
Definition honeypot_filled (honeypot : value) : option bool :=
  if ToBoolean honeypot
  then greater_than (get honeypot "length") (Fin 0)
  else Some false.

(** Line 51, the template literal of [verifyUrl]. *)
Definition verifyUrl (recaptchaSecret captchaToken : value) : option string :=
  match ToString recaptchaSecret, ToString captchaToken with
  | Some secret, Some token =>
      Some ("https://www.google.com/recaptcha/api/siteverify?secret=" +:+
            secret +:+ "&response=" +:+ token)
  | _, _ => None
  end.

(** Line 57, [!captchaData.success || captchaData.score < 0.5 ||
    captchaData.action !== 'submit'], on a [captchaData] that is neither
    [undefined] nor [null]: the score is compared, and may throw, only when
    [success] is truthy. *)
Definition verification_failed (captchaData : value) : option bool :=
  if negb (ToBoolean (get captchaData "success")) then Some true
  else
    match less_than (get captchaData "score") (Fin (1 # 2)) with
    | Some low => Some (low || negb (strict_equals (get captchaData "action") "submit"))
    | None => None
    end.

(** Line 58, the template literal of the warning. *)
Definition failure_warning (captchaData : value) : option string :=
  match ToString (get captchaData "score"), ToString (get captchaData "action") with
  | Some score, Some action =>
      Some ("Security verification failed. Score: " +:+ score +:+
            ", Action: " +:+ action)
  | _, _ => None
  end.

(** Lines 25 to 94: the body of the [try]. *)
Definition guarded (captchaToken honeypot formData user_email : value)
  : io Response :=
  (* 1. Honeypot Protection (Silent Success) *)
  filled <- coerce (honeypot_filled honeypot) ;;
  if filled : bool then
    perform (console_warn [LogValue (Str "Bot detected via honeypot")]) ;;
    Ret {| status := 200; json := Object [("success", Bool true)] |}
  else
  (* 2. Hardened Email Validation *)
  invalid <- (if negb (ToBoolean user_email) then Ret true
              else found <- call_includes user_email "@" ;; Ret (negb found)) ;;
  if invalid : bool then
    Ret {| status := 400; json := Object [("error", Str "Invalid email address.")] |}
  else
  (* 3. Disposable Email Detection *)
  pieces <- call_split user_email "@" ;;
  emailDomain <- call_toLowerCase (pieces !! 1%nat) ;;
  if isDisposable emailDomain || isSuspiciousTLD emailDomain then
    Ret {| status := 400;
           json := Object [("error", Str "Please use a professional email address.")] |}
  else
  (* 4. Invisible reCAPTCHA Verification (Server-Side) *)
  recaptchaSecret <- await (process_env "RECAPTCHA_SECRET_KEY") ;;
  url <- coerce (verifyUrl recaptchaSecret captchaToken) ;;
  captchaData <- await (fetch_json url "POST") ;;
  prop captchaData "success" ;;
  failed <- coerce (verification_failed captchaData) ;;
  if failed : bool then
    warning <- coerce (failure_warning captchaData) ;;
    perform (console_warn [LogValue (Str warning)]) ;;
    Ret {| status := 403;
           json := Object [("error", Str "Security verification failed. Please try again.")] |}
  else
  (* 5. Email Uniqueness (Soft Check) *)
  selected <- await (select_maybeSingle "diagnostic_submissions" "user_email"
                                         "user_email" user_email) ;;
  selected <- destructure selected ;;
  let existingUser := get selected "data" in
  if ToBoolean existingUser then
    Ret {| status := 409;
           json := Object [("error",
             Str "We’ve already received a submission from this email address.")] |}
  else
  (* 6. Insert Data (Database is final authority) *)
  inserted <- await (insert_rows "diagnostic_submissions" [formData]) ;;
  inserted <- destructure inserted ;;
  let insertError := get inserted "error" in
  if ToBoolean insertError then
    if strict_equals (get insertError "code") "23505" then
      Ret {| status := 409;
             json := Object [("error",
               Str "We’ve already received a submission from this email address.")] |}
    else
      perform (console_error [LogValue (Str "Supabase Insert Error:"); LogValue insertError]) ;;
      Throw (Error "Database error")
  else
    Ret {| status := 200; json := Object [("success", Bool true)] |}.

(** [export default async function handler(req, res)] *)
Definition handler (req : Request) : io Response :=
  (* Only allow POST *)
  if negb (strict_equals (method req) "POST") then
    Ret {| status := 405; json := Object [("error", Str "Method not allowed")] |}
  else
  fields <- destructure (body req) ;;
  let captchaToken := get fields "captchaToken" in
  let honeypot := get fields "honeypot" in
  let formData := get fields "formData" in
  let user_email := get_optional formData "user_email" in
  try_catch (guarded captchaToken honeypot formData user_email)
    (λ err,
      perform (console_error [LogValue (Str "API Error:"); LogExn err]) ;;
      Ret {| status := 500; json := Object [("error", Str "Internal server error")] |}).

End Handler.
Arguments honeypot_filled : simpl never.
Arguments verifyUrl : simpl never.
Arguments verification_failed : simpl never.
Arguments failure_warning : simpl never.

(* ===================================================================== *)
(** * The store and a runtime to run the handler against *)
(* ===================================================================== *)

(** The text of a row's [user_email], when it has one. *)
Definition email_of (row : value) : option string :=
  match get_optional row "user_email" with
  | Str e => Some e
  | _ => None
  end.

Definition has_email (e : string) (row : value) : bool :=
  bool_decide (email_of row = Some e).

(** The persistent store is an outside service: its code is not in the
    repository, and the definitions of this module follow what the
    specification says of it.  It holds the records of the one collection. *)
Module Store.

(** Modelled from the spec: the read capability of the store, "fetch at most
    one record by exact [user_email] match, tolerating zero-results without
    error", as [.select('user_email').eq('user_email', v).maybeSingle()]
    answers: the record's selected column when one record matches, [null]
    data when none does, and an error when several do. *)
Definition select (v : value) (rows : list value) : value :=
  match v with
  | Str e =>
      match List.filter (has_email e) rows with
      | [] => Object [("data", Null); ("error", Null)]
      | [_] => Object [("data", Object [("user_email", Str e)]); ("error", Null)]
      | _ => Object [("data", Null); ("error", Object [("code", Str "PGRST116")])]
      end
  | _ => Object [("data", Null); ("error", Null)]
  end.

(** Does [row] break the uniqueness of [user_email] among [rows]? *)
Definition violates (rows : list value) (row : value) : bool :=
  match email_of row with
  | Some e => existsb (has_email e) rows
  | None => false
  end.

(** Modelled from the spec: the write capability of the store, "insert one
    record into a fixed collection", under the uniqueness constraint on
    [user_email]: [.insert(new)] adds all the rows, or none when one of them
    violates the constraint. *)
Fixpoint insert (new rows : list value) : option (list value) :=
  match new with
  | [] => Some rows
  | row :: new' =>
      if violates rows row then None else insert new' (rows ++ [row])
  end.

(** Modelled from the spec: the store, the CAPTCHA verifier and the
    environment together.  A violated constraint is surfaced as "a
    distinguishable unique constraint violated error code", ['23505'].  The
    verifier is any function of the URL it is called with. *)
Definition backend (secret : value) (verifier : string → settled)
  : Backend (list value) :=
  λ c rows,
    match c with
    | console_warn _ | console_error _ => (Fulfilled Undefined, rows)
    | process_env _ => (Fulfilled secret, rows)
    | fetch_json url _ => (verifier url, rows)
    | select_maybeSingle _ _ _ v => (Fulfilled (select v rows), rows)
    | insert_rows _ new =>
        match insert new rows with
        | Some rows' => (Fulfilled (Object [("data", Null); ("error", Null)]), rows')
        | None => (Fulfilled (Object [("data", Null); ("error", Object [("code", Str "23505")])]), rows)
        end
    end.

(** A store whose insert is made to fail with [err] whatever the rows:
    the way to stage an insert that loses a race after the soft check saw
    nothing (with the code ['23505']), or any other write failure. *)
Definition faulty (err : value) (B : Backend (list value))
  : Backend (list value) :=
  λ c rows,
    match c with
    | insert_rows _ _ => (Fulfilled (Object [("data", Null); ("error", err)]), rows)
    | _ => B c rows
    end.

(** The invariant of the data model: no two records share a
    [user_email]. *)
Definition unique (rows : list value) : Prop :=
  NoDup (omap email_of rows).

End Store.

(** A runtime to evaluate the handler with, for ASCII text: [toLowerCase]
    lowers the letters [A] to [Z], and [StringToNumber] trims the white
    space of ASCII only.  [StringToNumber] reads the text as a
    [StringNumericLiteral] and gives the double nearest to it;
    [NumberToString] is [Number::toString] of the double nearest to the
    number: the shortest decimal that reads back as that double, in the
    notation JavaScript prints it. *)
Module AsciiRuntime.
#[local] Open Scope Z_scope.

(** The integer nearest to [n / d], for [0 < d]; a tie goes to the even
    one. *)
Definition nearest (n d : Z) : Z :=
  let q := n / d in
  match 2 * (n mod d) ?= d with
  | Lt => q
  | Gt => q + 1
  | Eq => if Z.even q then q else q + 1
  end.

(** [n / d * 2 ^ (- e)] as a fraction. *)
Definition scale2 (n d e : Z) : Z * Z :=
  if 0 <=? e then (n, d * 2 ^ e) else (n * 2 ^ (- e), d).

(** [n / d * 10 ^ e] as a fraction. *)
Definition scale10 (n d e : Z) : Z * Z :=
  if 0 <=? e then (n * 10 ^ e, d) else (n, d * 10 ^ (- e)).

(** The double nearest to [n / d], for [0 < n] and [0 < d]: [(m, e)] stands
    for [m * 2 ^ e], with [2 ^ 52 ≤ m < 2 ^ 53], or with [m < 2 ^ 52] and
    [e = -1074] for a subnormal or zero; [None] is an overflow. *)
Definition nearest_double (n d : Z) : option (Z * Z) :=
  let l := Z.log2 n - Z.log2 d in
  let '(n1, d1) := scale2 n d l in
  let e := Z.max (if n1 <? d1 then l - 53 else l - 52) (- 1074) in
  let '(n2, d2) := scale2 n d e in
  let m := nearest n2 d2 in
  let '(m, e) := if m =? 2 ^ 53 then (2 ^ 52, e + 1) else (m, e) in
  if 971 <? e then None else Some (m, e).

(** The least [p] from [p0] on with [n / d < 10 ^ p]. *)
Fixpoint position (fuel : nat) (n d p0 : Z) : Z :=
  match fuel with
  | O => p0
  | S fuel' =>
      let '(n', d') := scale10 n d (- p0) in
      if n' <? d' then p0 else position fuel' n d (p0 + 1)
  end.

(** The decimal [s * 10 ^ (p - k)] of [k] digits that is nearest to [n / d]
    among those whose nearest double is [x], if there is one. *)
Definition candidate (x : Z * Z) (n d p k : Z) : option Z :=
  let '(n', d') := scale10 n d (k - p) in
  let lo := n' / d' in
  let hi := if n' mod d' =? 0 then lo else lo + 1 in
  let reads s :=
    let '(sn, sd) := scale10 s 1 (p - k) in
    bool_decide (nearest_double sn sd = Some x) in
  match reads lo, reads hi with
  | true, true => Some (nearest n' d')
  | true, false => Some lo
  | false, true => Some hi
  | false, false => None
  end.

(** The shortest such decimal, with its number of digits, from [k] digits
    on. *)
Fixpoint shortest (fuel : nat) (x : Z * Z) (n d p k : Z) : Z * Z :=
  match candidate x n d p k, fuel with
  | Some s, _ => (s, k)
  | None, S fuel' => shortest fuel' x n d p (k + 1)
  | None, O => (nearest n d, p)
  end.

Fixpoint zeros (n : nat) : string :=
  match n with
  | O => EmptyString
  | S n' => String "0" (zeros n')
  end.

(** [Number::toString] of the positive double [m * 2 ^ e]: its digits [s]
    and the position [p] of the decimal point, [10 ^ (p - 1) ≤ x < 10 ^ p],
    then the notation: plain up to 21 digits before the point and 6 zeros
    after it, with an exponent beyond. *)
Definition string_of_double (x : Z * Z) : string :=
  let '(m, e) := x in
  let '(n, d) := scale2 m 1 (- e) in
  let p0 := (Z.log2 n - Z.log2 d - 1) * 30103 / 100000 - 1 in
  let p := position 6 n d p0 in
  let '(s, k) := shortest 17 x n d p 1 in
  let '(s, p) := if s =? 10 ^ k then (1, p + 1) else (s, p) in
  let text := pretty s in
  let k := Z.of_nat (String.length text) in
  if (k <=? p) && (p <=? 21) then
    text +:+ zeros (Z.to_nat (p - k))
  else if (0 <? p) && (p <=? 21) then
    substring 0 (Z.to_nat p) text +:+ "." +:+
    substring (Z.to_nat p) (Z.to_nat (k - p)) text
  else if (- 6 <? p) && (p <=? 0) then
    "0." +:+ zeros (Z.to_nat (- p)) +:+ text
  else
    let exponent :=
      (if 0 <? p - 1 then "e+" else "e-") +:+ pretty (Z.abs (p - 1)) in
    if k =? 1 then text +:+ exponent
    else substring 0 1 text +:+ "." +:+
         substring 1 (Z.to_nat (k - 1)) text +:+ exponent.

Definition string_of_number (n : number) : string :=
  match n with
  | NaN => "NaN"
  | PosInf => "Infinity"
  | NegInf => "-Infinity"
  | Fin (Qmake 0 _) => "0"
  | Fin (Qmake (Z.pos a) b) =>
      match nearest_double (Z.pos a) (Z.pos b) with
      | Some x => if fst x =? 0 then "0" else string_of_double x
      | None => "Infinity"
      end
  | Fin (Qmake (Z.neg a) b) =>
      match nearest_double (Z.pos a) (Z.pos b) with
      | Some x => if fst x =? 0 then "0" else "-" +:+ string_of_double x
      | None => "-Infinity"
      end
  end.

(** White space, as far as ASCII goes: TAB, LF, VT, FF, CR and the space. *)
Definition is_space (c : ascii) : bool :=
  let n := nat_of_ascii c in
  ((9 <=? n)%nat && (n <=? 13)%nat) || (n =? 32)%nat.

Fixpoint trim_start (s : string) : string :=
  match s with
  | String c s' => if is_space c then trim_start s' else s
  | EmptyString => EmptyString
  end.

Fixpoint trim_end (s : string) : string :=
  match s with
  | String c s' =>
      match trim_end s' with
      | EmptyString => if is_space c then EmptyString else String c EmptyString
      | rest => String c rest
      end
  | EmptyString => EmptyString
  end.

(** The value of a digit: [0] to [9], then [a] to [f] in either case. *)
Definition digit (c : ascii) : option Z :=
  let n := nat_of_ascii c in
  if (48 <=? n)%nat && (n <=? 57)%nat then Some (Z.of_nat (n - 48))
  else if (97 <=? n)%nat && (n <=? 102)%nat then Some (Z.of_nat (n - 87))
  else if (65 <=? n)%nat && (n <=? 70)%nat then Some (Z.of_nat (n - 55))
  else None.

(** The digits at the head of [s] in a base: their value after [acc], how
    many they are, and the rest of [s]. *)
Fixpoint digits (base acc count : Z) (s : string) : Z * Z * string :=
  match s with
  | String c s' =>
      match digit c with
      | Some d =>
          if d <? base then digits base (base * acc + d) (count + 1) s'
          else (acc, count, s)
      | None => (acc, count, s)
      end
  | EmptyString => (acc, count, s)
  end.

(** The double nearest to [n * 10 ^ e], for [0 ≤ n]. *)
Definition double_of_decimal (n e : Z) : number :=
  if n =? 0 then Fin 0
  else
    let '(a, b) := scale10 n 1 e in
    match nearest_double a b with
    | Some (m, e2) =>
        let '(c, d) := scale2 m 1 (- e2) in Fin (Qred (c # Z.to_pos d))
    | None => PosInf
    end.

(** [ExponentPart], or nothing, up to the end of the text. *)
Definition exponent (s : string) : option Z :=
  match s with
  | EmptyString => Some 0
  | String c s' =>
      if (c =? "e")%char || (c =? "E")%char then
        let '(sign, s'') :=
          match s' with
          | String "+" t => (1, t)
          | String "-" t => (- 1, t)
          | _ => (1, s')
          end in
        match digits 10 0 0 s'' with
        | (e, count, EmptyString) => if 0 <? count then Some (sign * e) else None
        | _ => None
        end
      else None
  end.

(** [StrUnsignedDecimalLiteral] *)
Definition unsigned_decimal (s : string) : number :=
  if String.eqb s "Infinity" then PosInf
  else
    let '(i, ni, s1) := digits 10 0 0 s in
    let '(f, nf, s2) :=
      match s1 with
      | String "." t => digits 10 i 0 t
      | _ => (i, 0, s1)
      end in
    if ni + nf =? 0 then NaN
    else
      match exponent s2 with
      | Some e => double_of_decimal f (e - nf)
      | None => NaN
      end.

Definition negate (n : number) : number :=
  match n with
  | NaN => NaN
  | Fin q => Fin (Qred (- q))
  | PosInf => NegInf
  | NegInf => PosInf
  end.

(** [NonDecimalIntegerLiteral] after its prefix. *)
Definition integer_in (base : Z) (s : string) : number :=
  match digits base 0 0 s with
  | (n, count, EmptyString) => if 0 <? count then double_of_decimal n 0 else NaN
  | _ => NaN
  end.

(** [StringToNumber]: the text, trimmed, is read as a
    [StrNumericLiteral]. *)
Definition number_of_string (s : string) : number :=
  match trim_end (trim_start s) with
  | EmptyString => Fin 0
  | String "+" t => unsigned_decimal t
  | String "-" t => negate (unsigned_decimal t)
  | String "0" (String "x" t) | String "0" (String "X" t) => integer_in 16 t
  | String "0" (String "o" t) | String "0" (String "O" t) => integer_in 8 t
  | String "0" (String "b" t) | String "0" (String "B" t) => integer_in 2 t
  | t => unsigned_decimal t
  end.

Definition runtime : Runtime := {|
  toLowerCase := ascii_toLowerCase;
  StringToNumber := number_of_string;
  NumberToString := string_of_number
|}.

End AsciiRuntime.

(* ===================================================================== *)
(** * The vocabulary of the specification *)
(* ===================================================================== *)

(** [typeof v === 'object'] and [v] is not [null]. *)
Definition is_object (v : value) : bool :=
  match v with
  | Object _ | Array _ => true
  | _ => false
  end.

(** [formData?.user_email] of a request. *)
Definition user_email_of (req : Request) : value :=
  get_optional (get (body req) "formData") "user_email".

(** A passing CAPTCHA: the verifier answers, with a verdict that is
    successful, scores at least 0.5 and is for the action ["submit"]. *)
Definition passing (answer : settled) : Prop :=
  ∃ verdict score,
    answer = Fulfilled verdict
    ∧ get verdict "success" = Bool true
    ∧ get verdict "score" = Number score
    ∧ num_le (Fin (1 # 2)) score = true
    ∧ get verdict "action" = Str "submit".

(** A valid submission of [email]: a POST with a CAPTCHA token, an empty
    honeypot and an address [local@domain] whose domain is not blocked. *)
Definition valid_submission `{Runtime} (req : Request) (email : string) : Prop :=
  method req = Str "POST"
  ∧ (∃ token, get (body req) "captchaToken" = Str token)
  ∧ get (body req) "honeypot" = Str ""
  ∧ user_email_of req = Str email
  ∧ ∃ local domain,
      email = local +:+ "@" +:+ domain
      ∧ includes "@" local = false
      ∧ includes "@" domain = false
      ∧ isDisposable (toLowerCase domain) = false
      ∧ isSuspiciousTLD (toLowerCase domain) = false.

(** The 409 message as the interface section of the specification prints it,
    with the ASCII apostrophe. *)
Definition spec_conflict_message : string :=
  "We've already received a submission from this email address.".

(** Requests, verdicts and worlds to run the handler on. *)
Module Examples.

(** A submission as the form sends it. *)
Definition submission (honeypot email : string) : Request := {|
  method := Str "POST";
  body := Object [
    ("captchaToken", Str "token");
    ("honeypot", Str honeypot);
    ("formData", Object [("user_email", Str email); ("company", Str "Acme")])
  ]
|}.

(** What the CAPTCHA verifier answers. *)
Definition verdict (success : bool) (score : Q) (action : string) : value :=
  Object [("success", Bool success); ("score", Number (Fin score)); ("action", Str action)].

(** A verdict that passes: a trusted visitor. *)
Definition trusted : value := verdict true (9 # 10) "submit".

(** The double nearest to the decimal [0.499]. *)
Definition double_0_499 : Q := 4494592428115755 # 9007199254740992.

(** The world with the store of the data model and a verifier that always
    answers [v]. *)
Definition world (v : value) : Backend (list value) :=
  Store.backend (Str "secret") (λ _, Fulfilled v).

(** A record already in the store. *)
Definition ada : value :=
  Object [("user_email", Str "ada@example.com"); ("company", Str "Analytical Engines")].

(** The same world with a store whose insert fails with [err]. *)
Definition broken (err : value) (v : value) : Backend (list value) :=
  Store.faulty err (world v).

(** The URL the handler verifies the token of [submission] at, in [world]. *)
Definition verify_url : string :=
  "https://www.google.com/recaptcha/api/siteverify?secret=secret&response=token".

(** A write failure that has nothing to do with uniqueness. *)
Definition undefined_table : value :=
  Object [("code", Str "42P01");
          ("message", Str "relation diagnostic_submissions does not exist")].

End Examples.

(* ===================================================================== *)
(** * The answers and the calls of a run *)
(* ===================================================================== *)

(** The responses the source writes: the [res.status(..).json(..)] of lines
    19, 30 and 93, 35, 44, 59, 71 and 84, 97. *)
Definition answers : list Response := [
  {| status := 405; json := Object [("error", Str "Method not allowed")] |};
  {| status := 200; json := Object [("success", Bool true)] |};
  {| status := 400; json := Object [("error", Str "Invalid email address.")] |};
  {| status := 400;
     json := Object [("error", Str "Please use a professional email address.")] |};
  {| status := 403;
     json := Object [("error", Str "Security verification failed. Please try again.")] |};
  {| status := 409; json := Object [("error",
       Str "We’ve already received a submission from this email address.")] |};
  {| status := 500; json := Object [("error", Str "Internal server error")] |}
].

(** The calls of a trace, without the replies. *)
Definition calls (t : list event) : list call := map fst t.

(** More requests and worlds to run the handler on. *)
Module Cases.

(** A submission of an address the store of [Examples.ada] knows. *)
Definition ada_again : Request := Examples.submission EmptyString "ada@example.com".

(** A world whose CAPTCHA verifier cannot be reached. *)
Definition offline : Backend (list value) :=
  Store.backend (Str "secret") (λ _, Rejected (TypeError "fetch failed")).

(** A submission whose [user_email] is a number. *)
Definition numbered : Request := {|
  method := Str "POST";
  body := Object [("captchaToken", Str "token"); ("honeypot", Str EmptyString);
                  ("formData", Object [("user_email", Number (Fin 7))])]
|}.

(** A submission whose honeypot is an array. *)
Definition trapped : Request := {|
  method := Str "POST";
  body := Object [("honeypot", Array [Str "x"])]
|}.

(** An object that cannot be made a string or a number: its [toString] is
    not a function. *)
Definition opaque : value := Object [("toString", Number (Fin 1))].

(** A submission whose honeypot has such a [length]. *)
Definition opaque_honeypot : Request := {|
  method := Str "POST";
  body := Object [("captchaToken", Str "token");
                  ("honeypot", Object [("length", opaque)]);
                  ("formData", Object [("user_email", Str "ada@example.com")])]
|}.

(** A submission whose token is such an object. *)
Definition opaque_token : Request := {|
  method := Str "POST";
  body := Object [("captchaToken", opaque); ("honeypot", Str EmptyString);
                  ("formData", Object [("user_email", Str "ada@example.com")])]
|}.

(** A verdict that passes but for its action, which is such an object. *)
Definition opaque_action : value :=
  Object [("success", Bool true); ("score", Number (Fin (9 # 10))); ("action", opaque)].

End Cases.

(* ===================================================================== *)
(** * Strings *)
(* ===================================================================== *)

Lemma prefix_spec p s : String.prefix p s = true ↔ ∃ t, s = p +:+ t.
Proof.
  revert s. induction p as [|c p IH]; intros s; simpl.
  - destruct s; split; eauto.
  - destruct s as [|d s]; simpl; [split; [done | intros [t [=]]] |].
    destruct (ascii_dec c d) as [Heq|Hne].
    + subst d. rewrite IH. split; intros [t Ht]; exists t; [by rewrite Ht | by injection Ht].
    + split; [done | intros [t [= ? _]]; congruence].
Qed.

(** [includes]: the text occurs somewhere. *)
Lemma includes_spec sub s : includes sub s = true ↔ ∃ a b, s = a +:+ sub +:+ b.
Proof.
  induction s as [|c s IH]; cbn [includes].
  - rewrite orb_false_r, prefix_spec. split.
    + intros [t Ht]. by exists EmptyString, t.
    + intros ([|? a] & b & Hab); [by exists b | discriminate].
  - rewrite orb_true_iff, prefix_spec, IH. split.
    + intros [[t Ht] | (a & b & ->)]; [by exists EmptyString, t | by exists (String c a), b].
    + intros ([|d a] & b & Hab); [left; by exists b | right].
      injection Hab as -> ->. by exists a, b.
Qed.

(** [endsWith]: the text is a suffix. *)
Lemma endsWith_spec s suffix : endsWith s suffix = true ↔ ∃ a, s = a +:+ suffix.
Proof.
  induction s as [|c s IH]; cbn [endsWith].
  - rewrite orb_false_r, String.eqb_eq. split.
    + intros <-. by exists EmptyString.
    + intros ([|? a] & Ha); [done | discriminate].
  - rewrite orb_true_iff, String.eqb_eq, IH. split.
    + intros [<- | [a ->]]; [by exists EmptyString | by exists (String c a)].
    + intros ([|d a] & Ha); [by left | right].
      injection Ha as -> ->. by exists a.
Qed.

(** Searching for one character: the head, then the rest. *)
Lemma includes_char sep c s :
  includes (String sep EmptyString) (String c s)
  = Ascii.eqb c sep || includes (String sep EmptyString) s.
Proof.
  simpl. destruct (ascii_dec sep c) as [Heq|Hne]; simpl.
  - subst c. rewrite Ascii.eqb_refl. by destruct s.
  - destruct (Ascii.eqb_spec c sep) as [Heq|_]; [by subst | done].
Qed.

Lemma split_nonempty sep s : split sep s ≠ [].
Proof.
  destruct s as [|c s]; simpl; [done |].
  destruct (Ascii.eqb c sep); [done |]. by destruct (split sep s).
Qed.

(** No separator: one piece. *)
Lemma split_none sep a :
  includes (String sep EmptyString) a = false → split sep a = [a].
Proof.
  induction a as [|c a IH]; [done |].
  rewrite includes_char. intros [Hc Ha]%orb_false_iff.
  simpl. by rewrite Hc, IH.
Qed.

(** The first piece ends at the first separator. *)
Lemma split_app sep a b :
  includes (String sep EmptyString) a = false →
  split sep (a +:+ String sep b) = a :: split sep b.
Proof.
  induction a as [|c a IH].
  - intros _. simpl. by rewrite Ascii.eqb_refl.
  - rewrite includes_char. intros [Hc Ha]%orb_false_iff.
    simpl. by rewrite Hc, IH.
Qed.

(** A string with a separator in it has a second piece: line 39 never
    reads [toLowerCase] of [undefined]. *)
Lemma split_second sep s :
  includes (String sep EmptyString) s = true → is_Some (split sep s !! 1%nat).
Proof.
  induction s as [|c s IH]; [done |].
  rewrite includes_char. simpl.
  pose proof (split_nonempty sep s) as Hne.
  destruct (Ascii.eqb c sep); simpl.
  - intros _. destruct (split sep s); [done | by eexists].
  - intros [d Hd]%IH. destruct (split sep s) as [|p ps]; [done | by exists d].
Qed.

(** What the handler makes of an address [local@domain] with one [@]. *)
Lemma address_shape `{Runtime} local domain :
  includes "@" local = false →
  includes "@" domain = false →
  ToBoolean (Str (local +:+ "@" +:+ domain)) = true
  ∧ includes "@" (local +:+ "@" +:+ domain) = true
  ∧ split "@" (local +:+ "@" +:+ domain) !! 1%nat = Some domain.
Proof.
  intros Hl Hd. split_and!.
  - by destruct local.
  - apply includes_spec. by exists local, domain.
  - change (local +:+ "@" +:+ domain) with (local +:+ String "@" domain).
    by rewrite split_app, split_none.
Qed.

Lemma isDisposable_spec d : isDisposable d = true ↔ d ∈ BLOCKED_DOMAINS.
Proof.
  unfold isDisposable. rewrite existsb_exists, list_elem_of_In. split.
  - by intros (x & Hx & ->%String.eqb_eq).
  - intros Hd. exists d. by rewrite String.eqb_refl.
Qed.

Lemma isSuspiciousTLD_spec d :
  isSuspiciousTLD d = true ↔ ∃ tld pre, tld ∈ BLOCKED_TLDS ∧ d = pre +:+ tld.
Proof.
  unfold isSuspiciousTLD. rewrite existsb_exists.
  setoid_rewrite endsWith_spec. setoid_rewrite <- list_elem_of_In.
  split; [intros (tld & Hin & pre & Hd) | intros (tld & pre & Hin & Hd)]; eauto.
Qed.

(* ===================================================================== *)
(** * Values *)
(* ===================================================================== *)

Lemma nullish_spec v : nullish v = true ↔ v = Undefined ∨ v = Null.
Proof. destruct v; simpl; (split; [by auto + done | by intros [|]]). Qed.

Lemma strict_equals_spec v lit : strict_equals v lit = true ↔ v = Str lit.
Proof.
  destruct v; simpl; try (split; [done | by intros [=]]).
  rewrite String.eqb_eq. split; [by intros -> | by intros [=]].
Qed.

Lemma get_nullish v key : nullish v = true → get v key = Undefined.
Proof. by destruct v. Qed.

(** Only an object has a string or a boolean under a key. *)
Lemma get_Str_truthy v key t : get v key = Str t → nullish v = false ∧ ToBoolean v = true.
Proof. destruct v; simpl; try done; by destruct (String.eqb key "length"). Qed.

Lemma get_Bool_not_nullish v key b : get v key = Bool b → nullish v = false.
Proof. destruct v; simpl; try done; by destruct (String.eqb key "length"). Qed.

(** Away from [NaN], [a < b] is the negation of [b <= a]. *)
Lemma num_lt_not_le a b : a ≠ NaN → b ≠ NaN → num_lt a b = negb (num_le b a).
Proof.
  destruct a as [|p| |], b as [|q| |]; try done; intros _ _; unfold num_lt, num_le.
  rewrite <- (Qcompare_antisym p q). by destruct (p ?= q)%Q.
Qed.

(** Line 27 on a string: it is filled when it is not empty. *)
Lemma honeypot_filled_empty `{Runtime} : honeypot_filled (Str EmptyString) = Some false.
Proof. done. Qed.

Lemma honeypot_filled_string `{Runtime} hp :
  hp ≠ EmptyString → honeypot_filled (Str hp) = Some true.
Proof. by destruct hp. Qed.

(** Line 27 throws on an object only. *)
Lemma honeypot_filled_throws `{Runtime} v :
  honeypot_filled v = None → ∃ props, v = Object props.
Proof.
  unfold honeypot_filled, greater_than.
  destruct v as [| |b|n|hp|elems|props]; simpl; try done;
    try (by destruct (ToBoolean _)).
  intros _. by exists props.
Qed.

(** Line 57 lets through the verdicts with a truthy [success], a [score]
    that is not below 0.5 and the action ["submit"]. *)
Lemma verification_passed `{Runtime} verdict :
  verification_failed verdict = Some false
  ↔ ToBoolean (get verdict "success") = true
    ∧ less_than (get verdict "score") (Fin (1 # 2)) = Some false
    ∧ get verdict "action" = Str "submit".
Proof.
  unfold verification_failed. rewrite <- strict_equals_spec.
  destruct (ToBoolean (get verdict "success")); simpl; [| split; [done | by intros [? _]]].
  destruct (less_than _ _) as [[|]|]; simpl;
    destruct (strict_equals _ _); simpl; split; try done; intros (_ & ? & ?); done.
Qed.

(** Line 57 on a verdict whose [success] is a boolean and whose [score] is a
    number: it does not throw. *)
Lemma verification_failed_typed `{Runtime} verdict (ok : bool) (score : number) :
  get verdict "success" = Bool ok →
  get verdict "score" = Number score →
  score ≠ NaN →
  ∃ failed,
    verification_failed verdict = Some failed
    ∧ (failed = false
       ↔ ok = true ∧ num_le (Fin (1 # 2)) score = true
         ∧ get verdict "action" = Str "submit").
Proof.
  intros Hok Hscore Hnan.
  assert (less_than (get verdict "score") (Fin (1 # 2))
          = Some (negb (num_le (Fin (1 # 2)) score))) as Hlow.
  { rewrite Hscore. unfold less_than. simpl. by rewrite num_lt_not_le. }
  destruct (verification_failed verdict) as [failed|] eqn:Hfailed.
  - exists failed. split; [done |]. destruct failed.
    + split; [done |]. intros (-> & Hle & Haction).
      assert (verification_failed verdict = Some false) as Hpassed; [| congruence].
      apply verification_passed. rewrite Hok, Hlow, Hle. done.
    + apply verification_passed in Hfailed as (Hs & Hl & Ha).
      rewrite Hok in Hs. rewrite Hlow in Hl. injection Hl as Hl.
      apply negb_false_iff in Hl. by destruct ok.
  - unfold verification_failed in Hfailed. rewrite Hlow in Hfailed.
    by destruct (negb (ToBoolean _)).
Qed.

(** Lines 51 and 58: what the template literals hold. *)
Lemma verifyUrl_spec `{Runtime} recaptchaSecret captchaToken url :
  verifyUrl recaptchaSecret captchaToken = Some url
  ↔ ∃ secret token,
      ToString recaptchaSecret = Some secret
      ∧ ToString captchaToken = Some token
      ∧ url = "https://www.google.com/recaptcha/api/siteverify?secret=" +:+
              secret +:+ "&response=" +:+ token.
Proof.
  unfold verifyUrl.
  destruct (ToString recaptchaSecret) as [secret|], (ToString captchaToken) as [token|];
    (split; [intros [=]; eauto | intros (? & ? & [=] & [=] & ->); by subst]).
Qed.

Lemma failure_warning_spec `{Runtime} captchaData warning :
  failure_warning captchaData = Some warning
  ↔ ∃ score action,
      ToString (get captchaData "score") = Some score
      ∧ ToString (get captchaData "action") = Some action
      ∧ warning = "Security verification failed. Score: " +:+ score +:+
                  ", Action: " +:+ action.
Proof.
  unfold failure_warning.
  destruct (ToString (get captchaData "score")) as [score|],
           (ToString (get captchaData "action")) as [action|];
    (split; [intros [=]; eauto | intros (? & ? & [=] & [=] & ->); by subst]).
Qed.

(* ===================================================================== *)
(** * Running programs *)
(* ===================================================================== *)

Lemma run_bind {A B S} (Bk : Backend S) (m : io A) (f : A → io B) (s : S) :
  run Bk (x <- m ;; f x) s =
    let r1 := run Bk m s in
    match ended r1 with
    | Returned a =>
        let r2 := run Bk (f a) (final r1) in
        Result (ended r2) (trace r1 ++ trace r2) (final r2)
    | Threw e => Result (Threw e) (trace r1) (final r1)
    end.
Proof.
  revert s. induction m as [a|e|c k IH]; intros s; simpl.
  - by destruct (run Bk (f a) s).
  - done.
  - destruct (Bk c s) as [r s1]. rewrite IH. simpl.
    by destruct (ended (run Bk (k r) s1)).
Qed.

Lemma run_try_catch {A S} (Bk : Backend S) (body_ : io A) (handle_ : exn → io A) (s : S) :
  run Bk (try_catch body_ handle_) s =
    let r1 := run Bk body_ s in
    match ended r1 with
    | Returned a => r1
    | Threw e =>
        let r2 := run Bk (handle_ e) (final r1) in
        Result (ended r2) (trace r1 ++ trace r2) (final r2)
    end.
Proof.
  revert s. induction body_ as [a|e|c k IH]; intros s; simpl.
  - done.
  - by destruct (run Bk (handle_ e) s).
  - destruct (Bk c s) as [r s1]. rewrite IH. simpl.
    destruct (ended (run Bk (k r) s1)) eqn:Hk; simpl; [|done].
    by destruct (run Bk (k r) s1); simpl in *; subst.
Qed.

(** A [try] whose [catch] always returns, returns. *)
Lemma try_catch_returns {A S} (Bk : Backend S) (body_ : io A) (handle_ : exn → io A) (s : S) :
  (∀ e s', ∃ a, ended (run Bk (handle_ e) s') = Returned a) →
  ∃ a, ended (run Bk (try_catch body_ handle_) s) = Returned a.
Proof.
  intros Hh. rewrite run_try_catch. simpl.
  destruct (ended (run Bk body_ s)) eqn:Hb; [by eexists | apply Hh].
Qed.

(** What holds of the state before a run and is kept by every call holds
    after the run. *)
Lemma run_invariant {A S} (Bk : Backend S) (inv : S → Prop) (p : io A) (s : S) :
  (∀ c s', inv s' → inv (Bk c s').2) → inv s → inv (final (run Bk p s)).
Proof.
  intros Hstep. revert s.
  induction p as [a|e|c k IH]; simpl; intros s Hs; [done | done |].
  destruct (Bk c s) as [r s1] eqn:Hc. simpl. apply IH.
  specialize (Hstep c s Hs). by rewrite Hc in Hstep.
Qed.

(** ** Walking through the handler

    [explore] follows the handler down every path: it splits on each test
    and on each reply of the backend, and leaves one goal per path, with the
    trace and the ending of that path written out. *)

Ltac unfold_calls :=
  unfold await, perform, prop, destructure, coerce, call_includes, call_split,
    call_toLowerCase in *.

Ltac explore :=
  repeat (simpl in *; unfold_calls;
    match goal with
    | |- context [ run _ (if ?b then _ else _) _ ] => destruct b eqn:?
    | |- context [ run _ (bind (if ?b then _ else _) _) _ ] => destruct b eqn:?
    | |- context [ run _ (try_catch (if ?b then _ else _) _) _ ] => destruct b eqn:?
    | |- context [ run _ (try_catch (bind (if ?b then _ else _) _) _) _ ] =>
        destruct b eqn:?
    | |- context [ match ?x with _ => _ end ] => destruct x eqn:?
    end).

Ltac split_in H :=
  lazymatch type of H with
  | _ ∨ _ => destruct H as [H|H]; [simplify_eq | split_in H]
  | False => destruct H
  end.

(** Which entry of the trace of a path is the event of [H]? *)
Ltac find_event H :=
  apply list_elem_of_In in H; simpl in H; split_in H.

(** An event is in the trace of a run on given data. *)
Ltac in_trace :=
  apply list_elem_of_In; vm_compute; repeat (first [left; reflexivity | right]).

(* ===================================================================== *)
(** * The honeypot and the shape of the request *)
(* ===================================================================== *)

Section Requests.
Context `{Runtime} {S : Type} (B : Backend S).

(** C1.  A POST whose honeypot field is a non-empty string is answered
    200 [{success: true}], whatever the address, the CAPTCHA token and the
    other fields are, and neither the store nor the CAPTCHA verifier is
    called. *)
Theorem honeypot_silent_success (s : S) (req : Request) (hp : string) :
  method req = Str "POST" →
  get (body req) "honeypot" = Str hp →
  hp ≠ EmptyString →
  let res := run B (handler req) s in
  ended res = Returned {| status := 200; json := Object [("success", Bool true)] |}
  ∧ store_calls (trace res) = []
  ∧ captcha_calls (trace res) = [].
Proof.
  intros Hm Hhp Hne.
  assert (nullish (body req) = false) as Hb.
  { destruct (nullish (body req)) eqn:Hn; [|done]. by rewrite get_nullish in Hhp. }
  unfold handler, guarded, destructure. rewrite Hm, Hb. simpl.
  rewrite Hhp, honeypot_filled_string by done. simpl. by destruct (B _ s).
Qed.

(** C7.  A POST with an empty honeypot whose [formData.user_email] is absent,
    or is a string without [@], is answered 400 "Invalid email address."
    and makes no call at all: none to the CAPTCHA verifier, none to the
    store. *)
Theorem invalid_email_rejected (s : S) (req : Request) :
  method req = Str "POST" →
  get (body req) "honeypot" = Str EmptyString →
  (user_email_of req = Undefined
   ∨ ∃ e, user_email_of req = Str e ∧ includes "@" e = false) →
  let res := run B (handler req) s in
  ended res =
    Returned {| status := 400; json := Object [("error", Str "Invalid email address.")] |}
  ∧ trace res = [].
Proof.
  intros Hm Hhp Hemail.
  assert (nullish (body req) = false) as Hb.
  { destruct (nullish (body req)) eqn:Hn; [|done]. by rewrite get_nullish in Hhp. }
  unfold user_email_of in Hemail.
  unfold handler, guarded, destructure. rewrite Hm, Hb. simpl. rewrite Hhp.
  rewrite honeypot_filled_empty. simpl.
  destruct Hemail as [-> | (e & -> & He)].
  - by change (ToBoolean Undefined) with false.
  - destruct (ToBoolean (Str e)); simpl; [by rewrite He | done].
Qed.

(** C10, amended.  On a POST the handler throws exactly when the body is
    [undefined] or [null]: then the destructuring of line 22 throws a
    [TypeError] before the [try], no call is made and no response is
    returned, not even the 500 of the [catch].  Any other body, a string or
    a number as well, is destructured without an exception. *)
Theorem destructuring_throws (s : S) (req : Request) :
  method req = Str "POST" →
  let res := run B (handler req) s in
  ((∃ e, ended res = Threw e) ↔ body req = Undefined ∨ body req = Null)
  ∧ (body req = Undefined ∨ body req = Null →
     ended res = Threw (TypeError "Cannot destructure") ∧ trace res = []).
Proof.
  intros Hm. unfold handler, destructure. rewrite Hm. simpl.
  rewrite <- nullish_spec. destruct (nullish (body req)); simpl.
  - split; [split; eauto | done].
  - split; [split; [|done] | done].
    intros [e He].
    match type of He with ended (run B (try_catch ?b ?h) s) = _ =>
      destruct (try_catch_returns B b h s) as [a Ha] end.
    + intros e' s'. simpl. destruct (B _ s'). by eexists.
    + congruence.
Qed.

End Requests.

Lemma honeypot_silent_success_witness :
  let res := run (Examples.world Examples.trusted)
                 (@handler AsciiRuntime.runtime
                    (Examples.submission "filled in" "not an address")) [] in
  ended res = Returned {| status := 200; json := Object [("success", Bool true)] |}
  ∧ store_calls (trace res) = []
  ∧ captcha_calls (trace res) = [].
Proof.
  apply (@honeypot_silent_success AsciiRuntime.runtime _ _ [] _ "filled in");
    [reflexivity | reflexivity | discriminate].
Defined.

Lemma invalid_email_rejected_witness :
  let res := run (Examples.world Examples.trusted)
                 (@handler AsciiRuntime.runtime
                    (Examples.submission EmptyString "ada.example.com")) [] in
  ended res =
    Returned {| status := 400; json := Object [("error", Str "Invalid email address.")] |}
  ∧ trace res = [].
Proof.
  apply (@invalid_email_rejected AsciiRuntime.runtime _ _ []); [reflexivity | reflexivity |].
  right. exists "ada.example.com". split; reflexivity.
Defined.

Lemma destructuring_throws_witness :
  let res := run (Examples.world Examples.trusted)
                 (@handler AsciiRuntime.runtime
                    {| method := Str "POST"; body := Undefined |}) [] in
  ended res = Threw (TypeError "Cannot destructure") ∧ trace res = [].
Proof.
  apply (@destructuring_throws AsciiRuntime.runtime _ _ []); [reflexivity | left; reflexivity].
Defined.

(** A body that is a string is not an object, and the handler answers it:
    every field destructured from it is [undefined]. *)
Lemma string_body_is_answered :
  let req := {| method := Str "POST"; body := Str "hello" |} in
  let res := run (Examples.world Examples.trusted) (@handler AsciiRuntime.runtime req) [] in
  method req = Str "POST"
  ∧ is_object (body req) = false
  ∧ ended res =
      Returned {| status := 400; json := Object [("error", Str "Invalid email address.")] |}.
Proof. by vm_compute. Qed.

(* ===================================================================== *)
(** * The domain gate *)
(* ===================================================================== *)

Section DomainGate.
Context `{Runtime} {S : Type} (B : Backend S).

(** The professional-email answer comes from the domain gate only. *)
Lemma professional_only_when_blocked (s : S) (req : Request) :
  ended (run B (handler req) s) =
    Returned {| status := 400; json := Object [("error",
      Str "Please use a professional email address.")] |} →
  ∃ e d, user_email_of req = Str e
         ∧ split "@" e !! 1%nat = Some d
         ∧ isDisposable (toLowerCase d) || isSuspiciousTLD (toLowerCase d) = true.
Proof.
  unfold handler, guarded, user_email_of.
  explore; try (intros [=]; fail); intros _; eauto.
Qed.

(** On an address [local@domain] with one [@] the gate rejects exactly the
    domains of the two lists, compared in lower case. *)
Lemma domain_gate_single_at (s : S) (req : Request) (local domain : string) :
  method req = Str "POST" →
  get (body req) "honeypot" = Str EmptyString →
  user_email_of req = Str (local +:+ "@" +:+ domain) →
  includes "@" local = false →
  includes "@" domain = false →
  ended (run B (handler req) s) =
    Returned {| status := 400; json := Object [("error",
      Str "Please use a professional email address.")] |}
  ↔ toLowerCase domain ∈ BLOCKED_DOMAINS
    ∨ ∃ tld pre, tld ∈ BLOCKED_TLDS ∧ toLowerCase domain = pre +:+ tld.
Proof.
  intros Hm Hhp Hue Hl Hd.
  rewrite <- isDisposable_spec, <- isSuspiciousTLD_spec, <- orb_true_iff.
  destruct (address_shape local domain Hl Hd) as (Htruthy & Hat & Hsplit).
  split.
  - intros (e & d & He & Hsp & Hblocked)%professional_only_when_blocked.
    rewrite Hue in He. injection He as <-. rewrite Hsplit in Hsp. by injection Hsp as <-.
  - intros Hblocked.
    assert (nullish (body req) = false) as Hb.
    { destruct (nullish (body req)) eqn:Hn; [|done]. by rewrite get_nullish in Hhp. }
    unfold user_email_of in Hue.
    unfold handler, guarded, destructure. rewrite Hm, Hb. simpl.
    rewrite Hhp, Hue, honeypot_filled_empty. simpl.
    rewrite Htruthy. simpl. rewrite Hat. simpl. rewrite Hsplit. simpl.
    by rewrite Hblocked.
Qed.

End DomainGate.

(** A domain that only contains a blocked suffix is not blocked. *)
Lemma superstring_passes :
  isDisposable "example.xyzz" || isSuspiciousTLD "example.xyzz" = false.
Proof. reflexivity. Qed.

(** C5.  The claim fails on an address with a second [@]: line 39 takes the
    piece between the first [@] and the second for the domain.  The address
    [a@b@mailinator.com] ends with a domain of the disposable list; the
    handler compares ["b"] with the lists, lets the address through and
    stores it. *)
Theorem second_at_sign_hides_the_domain :
  let email := "a@b@mailinator.com" in
  let res := run (Examples.world Examples.trusted)
                 (@handler AsciiRuntime.runtime (Examples.submission EmptyString email)) [] in
  endsWith email "@mailinator.com" = true
  ∧ isDisposable "mailinator.com" = true
  ∧ split "@" email !! 1%nat = Some "b"
  ∧ ended res = Returned {| status := 200; json := Object [("success", Bool true)] |}
  ∧ final res = [Object [("user_email", Str email); ("company", Str "Acme")]].
Proof. by vm_compute. Qed.

(* ===================================================================== *)
(** * The CAPTCHA gate *)
(* ===================================================================== *)

Section Gate.
Context `{Runtime} {S : Type} (B : Backend S).

(** C2.  In a run where the CAPTCHA verifier answers with a verdict whose
    [success] is a boolean, whose [score] is a number and whose [action] can
    be written into the warning of line 58 (a string, any other scalar, or
    absent: anything but an object or an array that hides [toString]), the
    request goes on to the store if and only if [success] is true, the score
    is at least 0.5 and the action is ["submit"]; otherwise, and only then,
    it is answered 403 with the security-verification message. *)
Theorem captcha_gate (s : S) (req : Request) url m verdict
    (ok : bool) (score : number) (action : string) :
  (fetch_json url m, Fulfilled verdict) ∈ trace (run B (handler req) s) →
  get verdict "success" = Bool ok →
  get verdict "score" = Number score →
  score ≠ NaN →
  ToString (get verdict "action") = Some action →
  let res := run B (handler req) s in
  let passes :=
    ok = true ∧ num_le (Fin (1 # 2)) score = true ∧ get verdict "action" = Str "submit" in
  (store_calls (trace res) ≠ [] ↔ passes)
  ∧ (ended res = Returned {| status := 403; json := Object [("error",
       Str "Security verification failed. Please try again.")] |} ↔ ¬ passes).
Proof.
  intros Hin Hok Hscore Hnan Haction. simpl.
  destruct (verification_failed_typed verdict ok score Hok Hscore Hnan)
    as (failed & Hfailed & Hgate).
  assert (failure_warning verdict ≠ None) as Hwarning.
  { unfold failure_warning. by rewrite Hscore, Haction. }
  assert (nullish verdict = false) as Hobj by by eapply get_Bool_not_nullish.
  revert Hin Hfailed Hgate Hwarning Hobj. clear.
  generalize (ok = true ∧ num_le (Fin (1 # 2)) score = true
              ∧ get verdict "action" = Str "submit").
  intros passes. unfold handler, guarded.
  explore; intros Hin Hfailed Hgate Hwarning Hobj; find_event Hin;
    unfold store_calls; simpl.
  all: try congruence.
  all: simplify_eq; intuition congruence.
Qed.

(** C9.  A verdict with [success: true] and [action: "submit"] but no
    [score] is not rejected: [undefined < 0.5] is false, the request goes on
    to the store and the answer is not the 403. *)
Theorem missing_score_passes (s : S) (req : Request) url m props :
  (fetch_json url m, Fulfilled (Object props)) ∈ trace (run B (handler req) s) →
  assoc "success" props = Some (Bool true) →
  assoc "action" props = Some (Str "submit") →
  assoc "score" props = None →
  let res := run B (handler req) s in
  less_than (get (Object props) "score") (Fin (1 # 2)) = Some false
  ∧ store_calls (trace res) ≠ []
  ∧ ended res ≠ Returned {| status := 403; json := Object [("error",
       Str "Security verification failed. Please try again.")] |}.
Proof.
  intros Hin Hok Haction Hscore. simpl.
  assert (less_than (get (Object props) "score") (Fin (1 # 2)) = Some false) as Hlow.
  { simpl. by rewrite Hscore. }
  assert (verification_failed (Object props) = Some false) as Hgate.
  { apply verification_passed. simpl. by rewrite Hok, Haction, Hscore. }
  split; [done |].
  assert (nullish (Object props) = false) as Hobj by done.
  revert Hin Hgate Hobj. clear. generalize (Object props). intros verdict.
  unfold handler, guarded.
  explore; intros Hin Hgate Hobj; find_event Hin; unfold store_calls; simpl;
    try congruence; (split; [done || congruence | done || congruence]).
Qed.

End Gate.

Lemma captcha_gate_witness :
  let submit verdict :=
    run (Examples.world verdict)
        (@handler AsciiRuntime.runtime
           (Examples.submission EmptyString "ada@example.com")) [] in
  let refused :=
    Returned {| status := 403; json := Object [("error",
      Str "Security verification failed. Please try again.")] |} in
  (* a score of exactly 0.5 passes *)
  store_calls (trace (submit (Examples.verdict true (1 # 2) "submit"))) ≠ []
  (* a score of 0.499 fails *)
  ∧ ended (submit (Examples.verdict true Examples.double_0_499 "submit")) = refused
  (* the action "other" fails, even with success and a score of 1.0 *)
  ∧ ended (submit (Examples.verdict true 1 "other")) = refused.
Proof.
  split_and!.
  - eapply (@captcha_gate AsciiRuntime.runtime _ _ [] _ Examples.verify_url "POST" _
              true (Fin (1 # 2)) "submit");
      [in_trace | reflexivity | reflexivity | discriminate | reflexivity | ].
    split_and!; reflexivity.
  - eapply (@captcha_gate AsciiRuntime.runtime _ _ [] _ Examples.verify_url "POST" _
              true (Fin Examples.double_0_499) "submit");
      [in_trace | reflexivity | reflexivity | discriminate | reflexivity | ].
    intros (_ & Hscore & _). vm_compute in Hscore. discriminate.
  - eapply (@captcha_gate AsciiRuntime.runtime _ _ [] _ Examples.verify_url "POST" _
              true (Fin 1) "other");
      [in_trace | reflexivity | reflexivity | discriminate | reflexivity | ].
    intros (_ & _ & Haction). vm_compute in Haction. discriminate.
Defined.

Lemma missing_score_passes_witness :
  let verdict := [("success", Bool true); ("action", Str "submit")] in
  let res := run (Examples.world (Object verdict))
                 (@handler AsciiRuntime.runtime
                    (Examples.submission EmptyString "ada@example.com")) [] in
  @less_than AsciiRuntime.runtime (get (Object verdict) "score") (Fin (1 # 2)) = Some false
  ∧ store_calls (trace res) ≠ []
  ∧ ended res ≠ Returned {| status := 403; json := Object [("error",
       Str "Security verification failed. Please try again.")] |}.
Proof.
  eapply (@missing_score_passes AsciiRuntime.runtime _ _ [] _ Examples.verify_url "POST");
    [in_trace | reflexivity | reflexivity | reflexivity].
Defined.

(* ===================================================================== *)
(** * Conflicts and write failures *)
(* ===================================================================== *)

Section Conflicts.
Context `{Runtime} {S : Type} (B : Backend S).

(** The soft check of line 70: a record found is a 409. *)
Lemma precheck_conflict (s : S) (req : Request) table cols col v found :
  (select_maybeSingle table cols col v, Fulfilled found) ∈ trace (run B (handler req) s) →
  ToBoolean (get found "data") = true →
  ended (run B (handler req) s) =
    Returned {| status := 409; json := Object [("error",
      Str "We’ve already received a submission from this email address.")] |}.
Proof.
  unfold handler, guarded.
  explore; intros Hin Hdata; find_event Hin; simpl; try done; try congruence.
  by rewrite get_nullish in Hdata.
Qed.

(** The constraint of line 83: the code ['23505'] is a 409. *)
Lemma insert_conflict (s : S) (req : Request) table rows reply :
  (insert_rows table rows, Fulfilled reply) ∈ trace (run B (handler req) s) →
  get (get reply "error") "code" = Str "23505" →
  ended (run B (handler req) s) =
    Returned {| status := 409; json := Object [("error",
      Str "We’ve already received a submission from this email address.")] |}.
Proof.
  unfold handler, guarded.
  explore; intros Hin Hcode; find_event Hin; simpl; try done.
  all: try (apply get_Str_truthy in Hcode as [? ?]; congruence).
  all: try (rewrite Hcode in *; simpl in *; congruence).
  match goal with Hn : nullish ?v = true |- _ =>
    by rewrite (get_nullish v) in Hcode end.
Qed.

(** C8, amended.  Every 409 the handler returns, from the soft check or from
    the insert, has the body [{error: m}] where [m] is the message of the
    source: the text of the interface specification with U+2019, the
    typographic apostrophe, where the specification prints an ASCII one. *)
Theorem conflict_message_exact (s : S) (req : Request) (r : Response) :
  ended (run B (handler req) s) = Returned r →
  status r = 409%Z →
  json r = Object [("error",
    Str "We’ve already received a submission from this email address.")].
Proof.
  unfold handler, guarded.
  explore; intros [= <-]; done.
Qed.

(** C6.  When the insert fails with an error whose code is not ['23505'],
    the answer is 500 with the body [{error: "Internal server error"}]:
    the same body whatever the error of the store is, so that nothing of it
    reaches the caller. *)
Theorem insert_failure_is_generic (s : S) (req : Request) table rows reply :
  (insert_rows table rows, Fulfilled reply) ∈ trace (run B (handler req) s) →
  ToBoolean (get reply "error") = true →
  get (get reply "error") "code" ≠ Str "23505" →
  ended (run B (handler req) s) =
    Returned {| status := 500; json := Object [("error", Str "Internal server error")] |}.
Proof.
  unfold handler, guarded.
  explore; intros Hin Herr Hcode; find_event Hin; simpl; try done; try congruence.
  match goal with Hs : strict_equals _ _ = true |- _ => apply strict_equals_spec in Hs end.
  congruence.
Qed.

End Conflicts.

Section TwoRuns.
Context `{Runtime} {S1 S2 : Type} (B1 : Backend S1) (B2 : Backend S2).

(** C3.  A request whose insert is refused by the uniqueness constraint
    (code ['23505']) is answered 409, and the answer is the very one a
    request gets whose address the soft check finds: the two cannot be told
    apart. *)
Theorem conflict_indistinguishable (s1 : S1) (s2 : S2) (req1 req2 : Request)
    table1 cols col v found table2 rows reply :
  (select_maybeSingle table1 cols col v, Fulfilled found)
    ∈ trace (run B1 (handler req1) s1) →
  ToBoolean (get found "data") = true →
  (insert_rows table2 rows, Fulfilled reply) ∈ trace (run B2 (handler req2) s2) →
  get (get reply "error") "code" = Str "23505" →
  ∃ r, ended (run B2 (handler req2) s2) = Returned r
       ∧ status r = 409%Z
       ∧ ended (run B1 (handler req1) s1) = Returned r.
Proof.
  intros Hsel Hdata Hins Hcode.
  rewrite (precheck_conflict _ _ _ _ _ _ _ _ Hsel Hdata).
  rewrite (insert_conflict _ _ _ _ _ _ Hins Hcode).
  by eexists.
Qed.

End TwoRuns.

Lemma conflict_message_exact_witness :
  let res := run (Examples.world Examples.trusted)
                 (@handler AsciiRuntime.runtime
                    (Examples.submission EmptyString "ada@example.com"))
                 [Examples.ada] in
  ∃ r, ended res = Returned r
       ∧ status r = 409%Z
       ∧ json r = Object [("error",
           Str "We’ve already received a submission from this email address.")].
Proof.
  eexists. split; [reflexivity |]. split; [reflexivity |].
  apply (@conflict_message_exact AsciiRuntime.runtime _ (Examples.world Examples.trusted)
           [Examples.ada] (Examples.submission EmptyString "ada@example.com")); reflexivity.
Defined.

(** The message of the source and the message of the specification differ
    in the apostrophe: bytes 226, 128, 153 (U+2019) against byte 39. *)
Lemma conflict_message_apostrophe :
  "We’ve already received a submission from this email address."
  = "We" +:+ String "226" (String "128" (String "153" EmptyString))
    +:+ "ve already received a submission from this email address."
  ∧ spec_conflict_message
    = "We" +:+ String "039" EmptyString
      +:+ "ve already received a submission from this email address.".
Proof. split; reflexivity. Qed.

(** A 409 whose body is not the one the interface specification prints. *)
Lemma conflict_message_differs :
  let res := run (Examples.world Examples.trusted)
                 (@handler AsciiRuntime.runtime
                    (Examples.submission EmptyString "ada@example.com"))
                 [Examples.ada] in
  ∃ r, ended res = Returned r
       ∧ status r = 409%Z
       ∧ json r ≠ Object [("error", Str spec_conflict_message)].
Proof. eexists. split; [reflexivity |]. split; [reflexivity | by vm_compute]. Qed.

Lemma insert_failure_is_generic_witness :
  let res := run (Examples.broken Examples.undefined_table Examples.trusted)
                 (@handler AsciiRuntime.runtime
                    (Examples.submission EmptyString "ada@example.com")) [] in
  ended res =
    Returned {| status := 500; json := Object [("error", Str "Internal server error")] |}.
Proof.
  eapply (@insert_failure_is_generic AsciiRuntime.runtime);
    [in_trace | reflexivity | discriminate].
Defined.

Lemma conflict_indistinguishable_witness :
  let known := run (Examples.world Examples.trusted)
                 (@handler AsciiRuntime.runtime
                    (Examples.submission EmptyString "ada@example.com"))
                 [Examples.ada] in
  let raced := run (Examples.broken (Object [("code", Str "23505")]) Examples.trusted)
                 (@handler AsciiRuntime.runtime
                    (Examples.submission EmptyString "ada@example.com")) [] in
  ∃ r, ended raced = Returned r ∧ status r = 409%Z ∧ ended known = Returned r.
Proof.
  eapply (@conflict_indistinguishable AsciiRuntime.runtime);
    [in_trace | reflexivity | in_trace | reflexivity].
Defined.

(* ===================================================================== *)
(** * The store: uniqueness of [user_email] *)
(* ===================================================================== *)

Lemma has_email_spec e row : has_email e row = true ↔ email_of row = Some e.
Proof. unfold has_email. by rewrite bool_decide_eq_true. Qed.

Lemma existsb_has_email e rows :
  existsb (has_email e) rows = true ↔ e ∈ omap email_of rows.
Proof.
  rewrite list_elem_of_omap, existsb_exists.
  setoid_rewrite has_email_spec. setoid_rewrite <- list_elem_of_In. done.
Qed.

Lemma filter_has_email_absent e rows :
  e ∉ omap email_of rows → List.filter (has_email e) rows = [].
Proof.
  induction rows as [|row rows IH]; simpl; [done |].
  destruct (has_email e row) eqn:Hrow.
  - apply has_email_spec in Hrow. rewrite Hrow. intros []. by left.
  - intros Hnot. apply IH. intros Hin. apply Hnot.
    destruct (email_of row); [by right | done].
Qed.

Lemma filter_has_email_present e rows :
  e ∈ omap email_of rows → List.filter (has_email e) rows ≠ [].
Proof.
  rewrite <- existsb_has_email, existsb_exists.
  intros (row & Hin & Hrow) Hnil.
  assert (In row (List.filter (has_email e) rows)) as Hf by by apply filter_In.
  by rewrite Hnil in Hf.
Qed.

(** An insert that goes through keeps the addresses distinct. *)
Lemma insert_keeps_unique new rows rows' :
  Store.insert new rows = Some rows' → Store.unique rows → Store.unique rows'.
Proof.
  revert rows. induction new as [|row new IH]; simpl; intros rows.
  - by intros [= ->].
  - destruct (Store.violates rows row) eqn:Hv; [done |].
    intros Hins Huniq. apply (IH _ Hins). clear IH Hins.
    unfold Store.unique, Store.violates in *. rewrite omap_app. simpl.
    destruct (email_of row) as [e|]; simpl; [| by rewrite app_nil_r].
    apply NoDup_app. split_and!; [done | | apply NoDup_singleton].
    intros e' He' ->%list_elem_of_singleton.
    apply existsb_has_email in He'. congruence.
Qed.

Lemma backend_keeps_unique secret verifier c rows :
  Store.unique rows → Store.unique (Store.backend secret verifier c rows).2.
Proof.
  intros Huniq. destruct c; simpl; try done.
  destruct (Store.insert rows0 rows) eqn:Hins; simpl; [|done].
  by eapply insert_keeps_unique.
Qed.

Section Resubmission.
Context `{Runtime} (verifier : string → settled).

(** Whatever the request and the secret, the handler leaves the store with
    distinct addresses. *)
Lemma handler_keeps_unique (secret : value) (rows : list value) (req : Request) :
  Store.unique rows →
  Store.unique (final (run (Store.backend secret verifier) (handler req) rows)).
Proof. apply run_invariant. apply backend_keeps_unique. Qed.

(** A valid submission with a passing CAPTCHA, where the environment holds
    a secret [key], gets as far as the store, and what happens there depends
    on whether the address is known. *)
Lemma valid_submission_run (key : string) (rows : list value) (req : Request)
    (email : string) :
  valid_submission req email →
  (∀ url, passing (verifier url)) →
  let res := run (Store.backend (Str key) verifier) (handler req) rows in
  if existsb (has_email email) rows
  then (∃ r, ended res = Returned r ∧ status r = 409%Z) ∧ final res = rows
  else (∃ r, ended res = Returned r ∧ status r = 200%Z)
       ∧ final res = rows ++ [get (body req) "formData"].
Proof.
  intros (Hm & [token Htoken] & Hhp & Hue
          & local & domain & -> & Hl & Hd & Hdis & Htld) Hpass.
  destruct (address_shape local domain Hl Hd) as (Htruthy & Hat & Hsplit).
  assert (nullish (body req) = false) as Hb.
  { destruct (nullish (body req)) eqn:Hn; [|done]. by rewrite get_nullish in Hhp. }
  unfold user_email_of in Hue.
  assert (email_of (get (body req) "formData") = Some (local +:+ "@" +:+ domain)) as Hkey.
  { unfold email_of. by rewrite Hue. }
  (* through the gates of lines 27 to 47 *)
  unfold handler, guarded, destructure. rewrite Hm, Hb. simpl.
  rewrite Hhp, Hue, honeypot_filled_empty. simpl.
  rewrite Htruthy. simpl. rewrite Hat. simpl. rewrite Hsplit. simpl.
  rewrite Hdis, Htld. simpl.
  (* the CAPTCHA *)
  rewrite Htoken. unfold verifyUrl. simpl.
  match goal with |- context [verifier ?url] =>
    destruct (Hpass url) as (verdict & score & -> & Hok & Hscore & Hle & Haction) end.
  simpl. unfold prop. rewrite (get_Bool_not_nullish _ _ _ Hok). simpl.
  assert (verification_failed verdict = Some false) as ->.
  { apply verification_passed. rewrite Hok, Hscore. split_and!; [done | | done].
    unfold less_than. simpl. rewrite num_lt_not_le, Hle; [done | by intros -> | done]. }
  (* the store *)
  simpl. unfold Store.select.
  destruct (existsb (has_email (local +:+ "@" +:+ domain)) rows) eqn:Hknown.
  - pose proof Hknown as Hfound.
    apply existsb_has_email, filter_has_email_present in Hfound.
    destruct (List.filter _ rows) as [|row [|row' found]]; [done | |]; simpl.
    + change (ToBoolean (Object _)) with true. simpl. split; [by eexists | done].
    + change (ToBoolean Null) with false. simpl.
      unfold Store.violates. rewrite Hkey, Hknown. simpl.
      change (ToBoolean (Object _)) with true. simpl. split; [by eexists | done].
  - rewrite filter_has_email_absent; [| by rewrite <- existsb_has_email, Hknown].
    simpl. change (ToBoolean Null) with false. simpl.
    unfold Store.violates. rewrite Hkey, Hknown. simpl.
    change (ToBoolean Null) with false. simpl. split; [by eexists | done].
Qed.

(** C4.  Two valid submissions of the same address, one after the other,
    each with a CAPTCHA token and a passing CAPTCHA, where the environment
    holds a secret [key], to a store that does not know the address: the
    first is answered 200, the second 409, and no two records of the store
    share a [user_email] afterwards. *)
Theorem resubmission_conflicts (key : string) (rows : list value)
    (req1 req2 : Request) (email : string) :
  valid_submission req1 email →
  valid_submission req2 email →
  (∀ url, passing (verifier url)) →
  Store.unique rows →
  email ∉ omap email_of rows →
  let first := run (Store.backend (Str key) verifier) (handler req1) rows in
  let second := run (Store.backend (Str key) verifier) (handler req2) (final first) in
  (∃ r, ended first = Returned r ∧ status r = 200%Z)
  ∧ (∃ r, ended second = Returned r ∧ status r = 409%Z)
  ∧ Store.unique (final second).
Proof.
  intros Hreq1 Hreq2 Hpass Huniq Hfresh. cbv zeta.
  pose proof (valid_submission_run key rows req1 email Hreq1 Hpass) as Hfirst.
  cbv zeta in Hfirst.
  set (first := run (Store.backend (Str key) verifier) (handler req1) rows) in *.
  rewrite (proj1 (not_true_iff_false _)) in Hfirst by by rewrite existsb_has_email.
  destruct Hfirst as [Hok Hrows].
  pose proof (valid_submission_run key (final first) req2 email Hreq2 Hpass) as Hsecond.
  cbv zeta in Hsecond.
  set (second := run (Store.backend (Str key) verifier) (handler req2) (final first)) in *.
  assert (existsb (has_email email) (final first) = true) as Hknown.
  { rewrite Hrows, existsb_app. apply orb_true_iff. right. simpl.
    destruct Hreq1 as (_ & _ & _ & Hue & _). unfold user_email_of in Hue.
    unfold has_email, email_of. rewrite Hue. by rewrite bool_decide_true. }
  rewrite Hknown in Hsecond. destruct Hsecond as [Hconflict Hsame].
  split_and!; [done | done |].
  subst second first. by do 2 apply handler_keeps_unique.
Qed.

End Resubmission.

Lemma resubmission_conflicts_witness :
  let W := Examples.world Examples.trusted in
  let grace := Examples.submission EmptyString "grace@example.org" in
  let first := run W (@handler AsciiRuntime.runtime grace) [Examples.ada] in
  let second := run W (@handler AsciiRuntime.runtime grace) (final first) in
  (∃ r, ended first = Returned r ∧ status r = 200%Z)
  ∧ (∃ r, ended second = Returned r ∧ status r = 409%Z)
  ∧ Store.unique (final second).
Proof.
  assert (@valid_submission AsciiRuntime.runtime
            (Examples.submission EmptyString "grace@example.org") "grace@example.org")
    as Hvalid.
  { split_and!; [reflexivity | by exists "token" | reflexivity | reflexivity |].
    exists "grace", "example.org". split_and!; reflexivity. }
  apply (@resubmission_conflicts AsciiRuntime.runtime
           (λ _, Fulfilled Examples.trusted) "secret" [Examples.ada] _ _
           "grace@example.org");
    [exact Hvalid | exact Hvalid | | |].
  - intros _. exists Examples.trusted, (Fin (9 # 10)). split_and!; reflexivity.
  - vm_compute. apply NoDup_singleton.
  - vm_compute. intros [Heq | Hin]%elem_of_cons; [discriminate | by apply elem_of_nil in Hin].
Defined.

(* ===================================================================== *)
(** * The shape of a run *)
(* ===================================================================== *)

Ltac in_list := apply list_elem_of_In; simpl; tauto.

Section Shape.
Context `{Runtime} {S : Type} (B : Backend S).

Lemma status_405_is_method (s : S) (req : Request) (r : Response) :
  ended (run B (handler req) s) = Returned r →
  status r = 405%Z →
  strict_equals (method req) "POST" = false.
Proof.
  unfold handler, guarded.
  explore; intros [= <-] Hstatus; simpl in Hstatus; try done.
  by apply negb_true_iff.
Qed.

(** X1.  The handler answers 405 "Method not allowed" exactly when
    [req.method] is not the string ["POST"], and then it makes no call and
    does not even read the body: an absent body does not make it throw. *)
Theorem method_not_allowed (s : S) (req : Request) :
  let res := run B (handler req) s in
  let refusal :=
    Returned {| status := 405; json := Object [("error", Str "Method not allowed")] |} in
  (method req ≠ Str "POST" ↔ ended res = refusal)
  ∧ (method req ≠ Str "POST" ↔ ∃ r, ended res = Returned r ∧ status r = 405%Z)
  ∧ (ended res = refusal → trace res = []).
Proof.
  simpl. rewrite <- strict_equals_spec, not_true_iff_false.
  assert (strict_equals (method req) "POST" = false →
          run B (handler req) s = Result
            (Returned {| status := 405;
                         json := Object [("error", Str "Method not allowed")] |}) [] s)
    as Hrefused.
  { intros Hm. unfold handler. by rewrite Hm. }
  split_and!.
  - split; [by intros ->%Hrefused |].
    intros Hr. by eapply status_405_is_method.
  - split; [intros ->%Hrefused; by eexists |].
    intros (r & Hr & Hstatus). by eapply status_405_is_method.
  - intros Hr. rewrite Hrefused; [done |]. by eapply status_405_is_method.
Qed.

Lemma returned_is_an_answer (s : S) (req : Request) (r : Response) :
  ended (run B (handler req) s) = Returned r → r ∈ answers.
Proof.
  unfold handler, guarded.
  explore; intros [= <-]; in_list.
Qed.

Lemma thrown_is_a_TypeError (s : S) (req : Request) (e : exn) :
  ended (run B (handler req) s) = Threw e → ∃ msg, e = TypeError msg.
Proof.
  unfold handler, guarded.
  explore; intros [= <-]; by eexists.
Qed.

(** X2.  Whatever the request and whatever the outside world replies, a run
    ends with one of the seven responses the source writes, or with a
    [TypeError]: nothing of the request, of the secret or of a reply is ever
    in a response. *)
Theorem answers_are_fixed (s : S) (req : Request) :
  match ended (run B (handler req) s) with
  | Returned r => r ∈ answers
  | Threw e => ∃ msg, e = TypeError msg
  end.
Proof.
  destruct (ended (run B (handler req) s)) as [r|e] eqn:Hend.
  - by eapply returned_is_an_answer.
  - by eapply thrown_is_a_TypeError.
Qed.

(** X3.  A request answered 400 or 405 has cost nothing: no log line, no
    read of the environment, no call to the CAPTCHA verifier or the store. *)
Theorem rejections_make_no_call (s : S) (req : Request) (r : Response) :
  ended (run B (handler req) s) = Returned r →
  status r = 400%Z ∨ status r = 405%Z →
  trace (run B (handler req) s) = [].
Proof.
  unfold handler, guarded.
  explore; intros [= <-] [Hs | Hs]; simpl in Hs; done.
Qed.

(** X4.  The store is called at most twice in a run, in this order: the
    select on [user_email], with the address exactly as it was sent, then the
    insert of the one row [formData], exactly as it was sent.  Never an insert
    without the select before it, never two inserts. *)
Theorem store_calls_in_order (s : S) (req : Request) :
  store_calls (trace (run B (handler req) s)) `prefix_of`
    [ select_maybeSingle "diagnostic_submissions" "user_email" "user_email"
        (user_email_of req);
      insert_rows "diagnostic_submissions" [get (body req) "formData"] ].
Proof.
  unfold handler, guarded, user_email_of.
  explore; unfold store_calls; simpl;
    first [ by apply prefix_nil | by apply prefix_cons, prefix_nil | done ].
Qed.

(** X5.  The store is never reached unless the CAPTCHA verifier has answered
    with a verdict that the condition of line 57 lets through: a truthy
    [success], a [score] that is not below 0.5, the action ["submit"]. *)
Theorem store_behind_captcha (s : S) (req : Request) :
  store_calls (trace (run B (handler req) s)) ≠ [] →
  ∃ url verdict,
    (fetch_json url "POST", Fulfilled verdict) ∈ trace (run B (handler req) s)
    ∧ ToBoolean (get verdict "success") = true
    ∧ less_than (get verdict "score") (Fin (1 # 2)) = Some false
    ∧ get verdict "action" = Str "submit".
Proof.
  unfold handler, guarded.
  explore; unfold store_calls; simpl; intros Hcalls; try done.
  all: match goal with
       | Hgate : verification_failed _ = Some false |- _ =>
           apply verification_passed in Hgate
       end.
  all: do 2 eexists; (split; [in_list | done]).
Qed.

(** X6.  The CAPTCHA gate fails closed: when the call to the verifier
    rejects (the network, a body that is not JSON) or answers [null], the
    request is answered 500 and the store is not touched. *)
Theorem captcha_failure_is_500 (s : S) (req : Request) url m reply :
  (fetch_json url m, reply) ∈ trace (run B (handler req) s) →
  (∀ verdict, reply = Fulfilled verdict → nullish verdict = true) →
  ended (run B (handler req) s) =
    Returned {| status := 500; json := Object [("error", Str "Internal server error")] |}
  ∧ store_calls (trace (run B (handler req) s)) = [].
Proof.
  unfold handler, guarded.
  explore; intros Hin Hreply; find_event Hin; unfold store_calls; simpl; try done.
  all: by specialize (Hreply _ eq_refl); congruence.
Qed.

(** X7.  A 200 means one of two things: the honeypot was tripped and the
    only call was the warning, or the row [formData] was inserted and the
    store reported no error. *)
Theorem success_means_written (s : S) (req : Request) :
  ended (run B (handler req) s) =
    Returned {| status := 200; json := Object [("success", Bool true)] |} →
  calls (trace (run B (handler req) s)) =
    [console_warn [LogValue (Str "Bot detected via honeypot")]]
  ∨ ∃ reply,
      (insert_rows "diagnostic_submissions" [get (body req) "formData"], Fulfilled reply)
        ∈ trace (run B (handler req) s)
      ∧ ToBoolean (get reply "error") = false.
Proof.
  unfold handler, guarded.
  explore; intros [=]; unfold calls; simpl; [by left | right].
  eexists. split; [in_list | done].
Qed.

(** X8.  After the soft check the insert is attempted exactly when the
    [data] of the reply is falsy.  The [error] of the reply is not looked at:
    a soft check that failed is taken for "no record", and the request goes
    on to the insert. *)
Theorem soft_check_decides_the_write (s : S) (req : Request) table cols col v found :
  (select_maybeSingle table cols col v, Fulfilled found)
    ∈ trace (run B (handler req) s) →
  nullish found = false →
  (∃ rows, insert_rows "diagnostic_submissions" rows
           ∈ store_calls (trace (run B (handler req) s)))
  ↔ ToBoolean (get found "data") = false.
Proof.
  unfold handler, guarded.
  explore; intros Hin Hfound; find_event Hin; unfold store_calls; simpl; try congruence.
  all: split; try congruence; try (intros _; eexists; in_list).
  all: intros [rows Hrows]; apply list_elem_of_In in Hrows; simpl in Hrows;
       intuition discriminate.
Qed.

(** X9.  No 500 without a log line: the last call of a run that is answered
    500 is the [console.error('API Error:', err)] of the [catch]. *)
Theorem every_500_is_logged (s : S) (req : Request) (r : Response) :
  ended (run B (handler req) s) = Returned r →
  status r = 500%Z →
  ∃ before err,
    calls (trace (run B (handler req) s)) =
      before ++ [console_error [LogValue (Str "API Error:"); LogExn err]].
Proof.
  unfold handler, guarded.
  explore; intros [= <-] Hs; simpl in Hs; try done; unfold calls; simpl.
  all: match goal with
       | |- ∃ before err, ?l = _ =>
           let n := eval cbv in (Nat.pred (length l)) in
           exists (take n l); eexists; reflexivity
       end.
Qed.

(** X10.  The error of a failed insert, kept out of the response, goes to
    the log whole: the run ends with
    [console.error('Supabase Insert Error:', insertError)] and then the
    [console.error] of the [catch], which carries ['Database error']. *)
Theorem store_error_goes_to_the_log (s : S) (req : Request) table rows reply :
  (insert_rows table rows, Fulfilled reply) ∈ trace (run B (handler req) s) →
  ToBoolean (get reply "error") = true →
  get (get reply "error") "code" ≠ Str "23505" →
  ∃ before,
    calls (trace (run B (handler req) s)) =
      before ++ [
        console_error [LogValue (Str "Supabase Insert Error:"); LogValue (get reply "error")];
        console_error [LogValue (Str "API Error:"); LogExn (Error "Database error")] ].
Proof.
  unfold handler, guarded.
  explore; intros Hin Herr Hcode; find_event Hin; unfold calls; simpl;
    try done; try congruence.
  all: first
    [ by rewrite get_nullish in Herr
    | match goal with Hs : strict_equals _ _ = true |- _ =>
        apply strict_equals_spec in Hs; congruence end
    | match goal with |- ∃ before, ?l = _ => exists (take 4 l); reflexivity end ].
Qed.

(** X11.  Every 403 is logged with what the verifier said: the last call of
    the run is a [console.warn] whose text holds the score and the action of
    the verdict, as [ToString] writes them. *)
Theorem refusal_403_is_logged (s : S) (req : Request) (r : Response) :
  ended (run B (handler req) s) = Returned r →
  status r = 403%Z →
  ∃ url verdict score action,
    (fetch_json url "POST", Fulfilled verdict) ∈ trace (run B (handler req) s)
    ∧ ToString (get verdict "score") = Some score
    ∧ ToString (get verdict "action") = Some action
    ∧ last (calls (trace (run B (handler req) s))) =
        Some (console_warn [LogValue (Str (
          "Security verification failed. Score: " +:+ score +:+
          ", Action: " +:+ action))]).
Proof.
  unfold handler, guarded.
  explore; intros [= <-] Hs; simpl in Hs; try done; unfold calls; simpl.
  match goal with
  | Hw : failure_warning _ = Some _ |- _ =>
      apply failure_warning_spec in Hw as (score & action & Hscore & Haction & ->)
  end.
  do 4 eexists. split_and!; [in_list | done | done | done].
Qed.

(** X12.  A [user_email] that is truthy but not a string (a number, [true],
    an object, or an array that holds ["@"]) is not answered 400: the method
    call of line 34 or 39 throws, and the answer is 500, after the one log
    line of the [catch]. *)
Theorem odd_email_is_a_500 (s : S) (req : Request) :
  method req = Str "POST" →
  get (body req) "honeypot" = Str EmptyString →
  ToBoolean (user_email_of req) = true →
  (∀ e, user_email_of req ≠ Str e) →
  (∀ elems, user_email_of req = Array elems → Str "@" ∈ elems) →
  ended (run B (handler req) s) =
    Returned {| status := 500; json := Object [("error", Str "Internal server error")] |}
  ∧ ∃ msg, calls (trace (run B (handler req) s)) =
      [console_error [LogValue (Str "API Error:"); LogExn (TypeError msg)]].
Proof.
  intros Hm Hhp Htruthy Hstr Harr.
  assert (nullish (body req) = false) as Hb.
  { destruct (nullish (body req)) eqn:Hn; [|done]. by rewrite get_nullish in Hhp. }
  unfold user_email_of in *.
  unfold handler, guarded, destructure. rewrite Hm, Hb. simpl. rewrite Hhp.
  rewrite honeypot_filled_empty. simpl. rewrite Htruthy. simpl.
  unfold calls.
  destruct (get_optional (get (body req) "formData") "user_email") as [| |b|n|e|elems|props];
    simpl; try (destruct (B _ s); simpl; split; [done | by eexists]).
  - by destruct (Hstr e).
  - assert (existsb (λ e, strict_equals e "@") elems = true) as ->.
    { apply existsb_exists. exists (Str "@"). split; [|done].
      apply list_elem_of_In. by apply Harr. }
    simpl. destruct (B _ s); simpl; split; [done | by eexists].
Qed.

(** X13.  When the honeypot is not an object (a string, as the form sends
    it, an array, another scalar, or absent) and [user_email] is a string,
    the input gates do not throw: if such a request is answered 500, it had
    passed the gates of lines 27 to 47 and the secret had been read for the
    CAPTCHA call.  (On a honeypot that is an object, the comparison of its
    [length] in line 27 can throw.) *)
Theorem string_email_fails_late (s : S) (req : Request) (e : string) (r : Response) :
  (∀ props, get (body req) "honeypot" ≠ Object props) →
  user_email_of req = Str e →
  ended (run B (handler req) s) = Returned r →
  status r = 500%Z →
  process_env "RECAPTCHA_SECRET_KEY" ∈ calls (trace (run B (handler req) s)).
Proof.
  unfold handler, guarded, user_email_of.
  explore; intros Hhp Hemail [= <-] Hs; simpl in Hs; try done; unfold calls; simpl;
    try in_list; try congruence.
  all: simplify_eq.
  all: match goal with
       | Hthrows : honeypot_filled _ = None |- _ =>
           apply honeypot_filled_throws in Hthrows as [props Hprops];
           by destruct (Hhp props)
       | Hsp : split "@" ?e !! 1%nat = None, Hat : negb (includes "@" ?e) = false |- _ =>
           apply negb_false_iff in Hat; destruct (split_second "@" e Hat) as [d Hd];
           congruence
       end.
Qed.

(** X14.  The CAPTCHA verifier is called at most once in a run, with the
    method POST, at the URL made of the secret read from
    [RECAPTCHA_SECRET_KEY] and of the token of the request, both as
    [ToString] writes them. *)
Theorem verifier_is_called_once (s : S) (req : Request) :
  (length (captcha_calls (trace (run B (handler req) s))) ≤ 1)%nat
  ∧ ∀ url m, fetch_json url m ∈ calls (trace (run B (handler req) s)) →
      m = "POST"
      ∧ ∃ recaptchaSecret secret token,
          (process_env "RECAPTCHA_SECRET_KEY", Fulfilled recaptchaSecret)
            ∈ trace (run B (handler req) s)
          ∧ ToString recaptchaSecret = Some secret
          ∧ ToString (get (body req) "captchaToken") = Some token
          ∧ url = "https://www.google.com/recaptcha/api/siteverify?secret=" +:+
                  secret +:+ "&response=" +:+ token.
Proof.
  unfold handler, guarded.
  explore; unfold captcha_calls, calls; simpl; (split; [lia |]);
    intros url m Hin; find_event Hin; (split; [done |]).
  all: match goal with
       | Hurl : verifyUrl _ _ = Some _ |- _ =>
           apply verifyUrl_spec in Hurl as (secret & token & Hsecret & Htoken & ->)
       end.
  all: do 3 eexists; (split_and!; [in_list | done | done | done]).
Qed.

(** X15.  The honeypot test of line 27 on values that are not strings: an
    array that is not empty trips it like a filled-in field (200, and the
    warning is the only call), while a number or a boolean, which have no
    [length], never does. *)
Theorem honeypot_other_shapes (s : S) (req : Request) :
  method req = Str "POST" →
  (∀ elems, get (body req) "honeypot" = Array elems → elems ≠ [] →
     ended (run B (handler req) s) =
       Returned {| status := 200; json := Object [("success", Bool true)] |}
     ∧ calls (trace (run B (handler req) s)) =
         [console_warn [LogValue (Str "Bot detected via honeypot")]])
  ∧ (∀ v, get (body req) "honeypot" = v →
       (∃ n, v = Number n) ∨ (∃ b, v = Bool b) →
       console_warn [LogValue (Str "Bot detected via honeypot")]
         ∉ calls (trace (run B (handler req) s))).
Proof.
  intros Hm. split.
  - intros elems Hhp Hne.
    assert (nullish (body req) = false) as Hb.
    { destruct (nullish (body req)) eqn:Hn; [|done]. by rewrite get_nullish in Hhp. }
    unfold handler, guarded, destructure. rewrite Hm, Hb. simpl. rewrite Hhp.
    assert (honeypot_filled (Array elems) = Some true) as -> by by destruct elems.
    simpl. by destruct (B _ s).
  - intros v Hhp Hv.
    assert (honeypot_filled v = Some false) as Hquiet.
    { unfold honeypot_filled, greater_than.
      destruct Hv as [[n ->] | [b ->]]; simpl; by destruct (ToBoolean _). }
    revert Hhp Hquiet. clear. unfold handler, guarded.
    explore; intros Hhp Hquiet; unfold calls; simpl;
      rewrite ?list_elem_of_In; simpl; try (intuition discriminate).
    all: try (subst v; congruence).
    all: match goal with
         | Hw : failure_warning _ = Some _ |- _ =>
             apply failure_warning_spec in Hw as (score & action & _ & _ & ->)
         end.
    all: intuition discriminate.
Qed.

(** X18.  Line 27 fails closed on a honeypot it cannot compare: when the
    honeypot is an object whose [length] cannot be made a number (as in
    [{"length": {"toString": 1}}]), the comparison throws, and the request
    is answered 500 whatever its other fields are; the only call is the
    [console.error] of the [catch]. *)
Theorem honeypot_coercion_is_a_500 (s : S) (req : Request) props :
  method req = Str "POST" →
  get (body req) "honeypot" = Object props →
  ToNumber (get (Object props) "length") = None →
  ended (run B (handler req) s) =
    Returned {| status := 500; json := Object [("error", Str "Internal server error")] |}
  ∧ ∃ msg, calls (trace (run B (handler req) s)) =
      [console_error [LogValue (Str "API Error:"); LogExn (TypeError msg)]].
Proof.
  intros Hm Hhp Hlength.
  assert (nullish (body req) = false) as Hb.
  { destruct (nullish (body req)) eqn:Hn; [|done]. by rewrite get_nullish in Hhp. }
  assert (honeypot_filled (Object props) = None) as Hthrows.
  { unfold honeypot_filled, greater_than. by rewrite Hlength. }
  unfold handler, guarded, destructure. rewrite Hm, Hb. simpl.
  rewrite Hhp, Hthrows. simpl. unfold calls.
  destruct (B _ s); simpl. split; [done | by eexists].
Qed.

(** X19.  Line 51 fails closed: when the secret or the token cannot be
    written into the URL, the template literal throws, the verifier and the
    store are not called, and the request is answered 500. *)
Theorem token_coercion_is_a_500 (s : S) (req : Request) recaptchaSecret :
  (process_env "RECAPTCHA_SECRET_KEY", Fulfilled recaptchaSecret)
    ∈ trace (run B (handler req) s) →
  ToString recaptchaSecret = None ∨ ToString (get (body req) "captchaToken") = None →
  ended (run B (handler req) s) =
    Returned {| status := 500; json := Object [("error", Str "Internal server error")] |}
  ∧ captcha_calls (trace (run B (handler req) s)) = []
  ∧ store_calls (trace (run B (handler req) s)) = [].
Proof.
  intros Hin Hthrows.
  assert (verifyUrl recaptchaSecret (get (body req) "captchaToken") = None) as Hurl.
  { unfold verifyUrl. destruct Hthrows as [-> | ->]; [done | by destruct (ToString _)]. }
  revert Hin Hurl. clear. unfold handler, guarded.
  explore; intros Hin Hurl; find_event Hin; unfold captcha_calls, store_calls; simpl;
    first [congruence | by split_and!].
Qed.

(** X20.  Lines 57 and 58 fail closed: when the verifier answers with a
    verdict whose score cannot be compared, or with a verdict that is
    refused but whose score or action cannot be written into the warning,
    the request is answered 500, not 403, and the store is not called. *)
Theorem verdict_coercion_is_a_500 (s : S) (req : Request) url m verdict :
  (fetch_json url m, Fulfilled verdict) ∈ trace (run B (handler req) s) →
  verification_failed verdict = None
  ∨ (verification_failed verdict = Some true
     ∧ (ToString (get verdict "score") = None
        ∨ ToString (get verdict "action") = None)) →
  ended (run B (handler req) s) =
    Returned {| status := 500; json := Object [("error", Str "Internal server error")] |}
  ∧ store_calls (trace (run B (handler req) s)) = [].
Proof.
  intros Hin Hthrows.
  assert (verification_failed verdict = None
          ∨ (verification_failed verdict = Some true ∧ failure_warning verdict = None))
    as Hgate.
  { destruct Hthrows as [? | [? Hwarning]]; [by left | right; split; [done |]].
    unfold failure_warning. destruct Hwarning as [-> | ->]; [done | by destruct (ToString _)]. }
  revert Hin Hgate. clear. unfold handler, guarded.
  explore; intros Hin Hgate; find_event Hin; unfold store_calls; simpl;
    first [by split_and! | intuition congruence].
Qed.

End Shape.

(* ===================================================================== *)
(** * The two lists *)
(* ===================================================================== *)

Lemma string_app_assoc a b c : (a +:+ b) +:+ c = a +:+ (b +:+ c).
Proof.
  induction a as [|x a IH]; [done |].
  change (String x ((a +:+ b) +:+ c) = String x (a +:+ b +:+ c)). by f_equal.
Qed.

Lemma string_length_app a b :
  String.length (a +:+ b) = (String.length a + String.length b)%nat.
Proof.
  induction a as [|x a IH]; [done |].
  change (S (String.length (a +:+ b)) = S (String.length a + String.length b)).
  by f_equal.
Qed.

(** A suffix of [pre ++ d] that is no longer than [d] is a suffix of [d]. *)
Lemma endsWith_app pre d t :
  endsWith (pre +:+ d) t = true →
  (String.length t ≤ String.length d)%nat →
  endsWith d t = true.
Proof.
  induction pre as [|x pre IH]; [done |].
  change (String x pre +:+ d) with (String x (pre +:+ d)). cbn [endsWith].
  intros [Heq%String.eqb_eq | Hrest]%orb_true_iff Hlen; [| by apply IH].
  subst t. simpl in Hlen. rewrite string_length_app in Hlen. lia.
Qed.

(** One goal for each entry of the list [H] says its element is in. *)
Ltac each_entry H :=
  apply list_elem_of_In in H; simpl in H;
  repeat (destruct H as [H|H]; [subst |]); [.. | destruct H].

(** X16.  The suffix list reaches below the names it blocks: once a domain
    ends with a blocked suffix, so does every name that ends with that
    domain, its subdomains among them. *)
Theorem blocked_suffix_covers_subdomains (pre d : string) :
  isSuspiciousTLD d = true → isSuspiciousTLD (pre +:+ d) = true.
Proof.
  rewrite !isSuspiciousTLD_spec. intros (tld & p & Htld & ->).
  exists tld, (pre +:+ p). by rewrite string_app_assoc.
Qed.

(** X17.  The disposable list does not: it is compared for equality, so
    any name that ends with a listed domain and is longer, a subdomain such as
    [mail.mailinator.com], is on neither list and passes the gate. *)
Theorem subdomain_of_disposable_passes (pre d : string) :
  pre ≠ EmptyString →
  d ∈ BLOCKED_DOMAINS →
  isDisposable (pre +:+ d) = false ∧ isSuspiciousTLD (pre +:+ d) = false.
Proof.
  intros Hpre Hd. split; apply not_true_iff_false.
  - intros Hx%isDisposable_spec.
    assert (endsWith (pre +:+ d) d = true) as Hends by (apply endsWith_spec; by exists pre).
    assert (String.length (pre +:+ d) = String.length d) as Hlen.
    { revert Hends. generalize dependent (pre +:+ d). intros x Hx.
      each_entry Hx; each_entry Hd; vm_compute; congruence. }
    rewrite string_length_app in Hlen. destruct pre; [done | simpl in Hlen; lia].
  - intros (tld & p & Htld & Heq)%isSuspiciousTLD_spec.
    assert (endsWith (pre +:+ d) tld = true) as Hends by (apply endsWith_spec; by exists p).
    clear Heq. each_entry Hd; each_entry Htld;
      (apply endsWith_app in Hends; [by vm_compute in Hends | simpl; lia]).
Qed.

(* ===================================================================== *)
(** * Runs that show the hypotheses above can be met *)
(* ===================================================================== *)

Lemma rejections_make_no_call_witness :
  trace (run (Examples.world Examples.trusted)
           (@handler AsciiRuntime.runtime
              (Examples.submission EmptyString "ada@mailinator.com")) []) = [].
Proof.
  eapply (@rejections_make_no_call AsciiRuntime.runtime); [reflexivity | left; reflexivity].
Defined.

Lemma store_behind_captcha_witness :
  let res := run (Examples.world Examples.trusted)
               (@handler AsciiRuntime.runtime Cases.ada_again) [] in
  ∃ url verdict,
    (fetch_json url "POST", Fulfilled verdict) ∈ trace res
    ∧ @ToBoolean (get verdict "success") = true
    ∧ @less_than AsciiRuntime.runtime (get verdict "score") (Fin (1 # 2)) = Some false
    ∧ get verdict "action" = Str "submit".
Proof.
  apply (@store_behind_captcha AsciiRuntime.runtime). by vm_compute.
Defined.

Lemma captcha_failure_is_500_witness :
  let res := run Cases.offline (@handler AsciiRuntime.runtime Cases.ada_again) [] in
  ended res =
    Returned {| status := 500; json := Object [("error", Str "Internal server error")] |}
  ∧ store_calls (trace res) = [].
Proof.
  eapply (@captcha_failure_is_500 AsciiRuntime.runtime _ Cases.offline [] Cases.ada_again
            Examples.verify_url "POST" (Rejected (TypeError "fetch failed")));
    [in_trace | discriminate].
Defined.

Lemma success_means_written_witness :
  let res := run (Examples.world Examples.trusted)
               (@handler AsciiRuntime.runtime Cases.ada_again) [] in
  calls (trace res) = [console_warn [LogValue (Str "Bot detected via honeypot")]]
  ∨ ∃ reply,
      (insert_rows "diagnostic_submissions" [get (body Cases.ada_again) "formData"],
       Fulfilled reply) ∈ trace res
      ∧ ToBoolean (get reply "error") = false.
Proof. apply (@success_means_written AsciiRuntime.runtime). reflexivity. Defined.

Lemma soft_check_decides_the_write_witness :
  let res := run (Examples.world Examples.trusted)
               (@handler AsciiRuntime.runtime Cases.ada_again) [Examples.ada] in
  (∃ rows, insert_rows "diagnostic_submissions" rows ∈ store_calls (trace res))
  ↔ ToBoolean (Object [("user_email", Str "ada@example.com")]) = false.
Proof.
  eapply (@soft_check_decides_the_write AsciiRuntime.runtime _ _ [Examples.ada] Cases.ada_again
            _ _ _ _ (Object [("data", Object [("user_email", Str "ada@example.com")]);
                             ("error", Null)]));
    [in_trace | reflexivity].
Defined.

Lemma every_500_is_logged_witness :
  let res := run Cases.offline (@handler AsciiRuntime.runtime Cases.ada_again) [] in
  ∃ before err,
    calls (trace res) = before ++ [console_error [LogValue (Str "API Error:"); LogExn err]].
Proof.
  eapply (@every_500_is_logged AsciiRuntime.runtime); [reflexivity | reflexivity].
Defined.

Lemma store_error_goes_to_the_log_witness :
  let res := run (Examples.broken Examples.undefined_table Examples.trusted)
               (@handler AsciiRuntime.runtime Cases.ada_again) [] in
  ∃ before,
    calls (trace res) =
      before ++ [
        console_error [LogValue (Str "Supabase Insert Error:");
                       LogValue Examples.undefined_table];
        console_error [LogValue (Str "API Error:"); LogExn (Error "Database error")] ].
Proof.
  eapply (@store_error_goes_to_the_log AsciiRuntime.runtime _
            (Examples.broken Examples.undefined_table Examples.trusted) [] Cases.ada_again
            _ _ (Object [("data", Null); ("error", Examples.undefined_table)]));
    [in_trace | reflexivity | discriminate].
Defined.

Lemma refusal_403_is_logged_witness :
  let res := run (Examples.world (Examples.verdict true (1 # 10) "submit"))
               (@handler AsciiRuntime.runtime Cases.ada_again) [] in
  ∃ url verdict score action,
    (fetch_json url "POST", Fulfilled verdict) ∈ trace res
    ∧ @ToString AsciiRuntime.runtime (get verdict "score") = Some score
    ∧ @ToString AsciiRuntime.runtime (get verdict "action") = Some action
    ∧ last (calls (trace res)) =
        Some (console_warn [LogValue (Str (
          "Security verification failed. Score: " +:+ score +:+
          ", Action: " +:+ action))]).
Proof.
  eapply (@refusal_403_is_logged AsciiRuntime.runtime); [reflexivity | reflexivity].
Defined.

Lemma odd_email_is_a_500_witness :
  let res := run (Examples.world Examples.trusted) (@handler AsciiRuntime.runtime Cases.numbered) [] in
  ended res =
    Returned {| status := 500; json := Object [("error", Str "Internal server error")] |}
  ∧ ∃ msg, calls (trace res) =
      [console_error [LogValue (Str "API Error:"); LogExn (TypeError msg)]].
Proof.
  apply (@odd_email_is_a_500 AsciiRuntime.runtime);
    [reflexivity | reflexivity | reflexivity | discriminate | discriminate].
Defined.

Lemma string_email_fails_late_witness :
  process_env "RECAPTCHA_SECRET_KEY"
    ∈ calls (trace (run Cases.offline (@handler AsciiRuntime.runtime Cases.ada_again) [])).
Proof.
  eapply (@string_email_fails_late AsciiRuntime.runtime);
    [discriminate | reflexivity | reflexivity | reflexivity].
Defined.

Lemma honeypot_other_shapes_witness :
  let res := run (Examples.world Examples.trusted) (@handler AsciiRuntime.runtime Cases.trapped) [] in
  ended res = Returned {| status := 200; json := Object [("success", Bool true)] |}
  ∧ calls (trace res) = [console_warn [LogValue (Str "Bot detected via honeypot")]].
Proof.
  eapply (proj1 (@honeypot_other_shapes AsciiRuntime.runtime _ _ [] Cases.trapped eq_refl));
    [reflexivity | discriminate].
Defined.

Lemma honeypot_coercion_is_a_500_witness :
  let res := run (Examples.world Examples.trusted)
               (@handler AsciiRuntime.runtime Cases.opaque_honeypot) [] in
  ended res =
    Returned {| status := 500; json := Object [("error", Str "Internal server error")] |}
  ∧ ∃ msg, calls (trace res) =
      [console_error [LogValue (Str "API Error:"); LogExn (TypeError msg)]].
Proof.
  eapply (@honeypot_coercion_is_a_500 AsciiRuntime.runtime);
    [reflexivity | reflexivity | reflexivity].
Defined.

Lemma token_coercion_is_a_500_witness :
  let res := run (Examples.world Examples.trusted)
               (@handler AsciiRuntime.runtime Cases.opaque_token) [] in
  ended res =
    Returned {| status := 500; json := Object [("error", Str "Internal server error")] |}
  ∧ captcha_calls (trace res) = []
  ∧ store_calls (trace res) = [].
Proof.
  eapply (@token_coercion_is_a_500 AsciiRuntime.runtime _ _ [] _ (Str "secret"));
    [in_trace | right; reflexivity].
Defined.

Lemma verdict_coercion_is_a_500_witness :
  let res := run (Examples.world Cases.opaque_action)
               (@handler AsciiRuntime.runtime Cases.ada_again) [] in
  ended res =
    Returned {| status := 500; json := Object [("error", Str "Internal server error")] |}
  ∧ store_calls (trace res) = [].
Proof.
  eapply (@verdict_coercion_is_a_500 AsciiRuntime.runtime _ _ [] _
            Examples.verify_url "POST" Cases.opaque_action);
    [in_trace | right; split; [reflexivity | right; reflexivity]].
Defined.

Lemma blocked_suffix_covers_subdomains_witness :
  isSuspiciousTLD ("mail." +:+ "example.xyz") = true.
Proof. apply blocked_suffix_covers_subdomains. reflexivity. Defined.

Lemma subdomain_of_disposable_passes_witness :
  isDisposable ("mail." +:+ "mailinator.com") = false
  ∧ isSuspiciousTLD ("mail." +:+ "mailinator.com") = false.
Proof.
  apply subdomain_of_disposable_passes; [discriminate |].
  apply list_elem_of_In. simpl. tauto.
Defined.
